(** * Appointment scheduling and preference-graph core

    A shallow embedding of [app/services/appointment_service.py],
    [app/core/graph_db.py] and the parts of [app/models/schemas.py] and
    [app/core/database.py] they rely on, with the properties of the
    scheduling core stated and settled against it. *)

From Stdlib Require Import ZArith QArith Lqa Lia Sorted.
From stdpp Require Import base option list strings gmap.

Local Open Scope string_scope.
Local Open Scope list_scope.
Local Open Scope Z_scope.

(** ** Errors and results *)

Inductive error :=
  | ValueError (msg : string)
  | ValidationError (msg : string)   (* pydantic, raised by model_validate *)
  | MultipleResultsFound             (* scalar_one_or_none on several rows *)
  | IntegrityError                   (* commit: key constraint violated *)
  | AttributeError                   (* attribute access on None *)
  | GraphStoreError                  (* the graph driver raised *)
  | OverflowError.                   (* datetime arithmetic out of range *)

Inductive result (A : Type) :=
  | Ok (a : A)
  | Err (e : error).
Arguments Ok {A} a.
Arguments Err {A} e.

Definition is_ok {A} (r : result A) : bool :=
  match r with Ok _ => true | Err _ => false end.

#[global] Instance result_bind : MBind result :=
  λ A B f r, match r with Ok a => f a | Err e => Err e end.

(** ** Time

    A naive [datetime] is the number of microseconds (Python's
    resolution) since 0001-01-01 00:00, which is [datetime.min]; a [date]
    is the number of days since 0001-01-01 and a [time] an offset inside
    the day.  The calendar ends with 9999-12-31, day 3652058. *)

Definition datetime := Z.
Definition date := Z.
Definition time := Z.

Definition usec_per_minute : Z := 60000000.
Definition usec_per_day : Z := 1440 * usec_per_minute.

Definition valid_date (d : date) : Prop := 0 <= d < 3652059.
Definition valid_time (t : time) : Prop := 0 <= t < usec_per_day.

(** [datetime.min] and [datetime.max] *)
Definition datetime_min : datetime := 0.
Definition datetime_max : datetime := 3652059 * usec_per_day - 1.

(** The duration of [m] minutes, in microseconds. *)
Definition timedelta (m : Z) : Z := m * usec_per_minute.

(** [timedelta(minutes=m)]: the number of whole days must have magnitude
    at most 999999999. *)
Definition timedelta_checked (m : Z) : result Z :=
  if Z.abs (m / 1440) >? 999999999 then Err OverflowError
  else Ok (timedelta m).

(** [t + delta] on a [datetime]: the sum must lie between [datetime.min]
    and [datetime.max]. *)
Definition datetime_add (t : datetime) (delta : Z) : result datetime :=
  if (datetime_min <=? t + delta) && (t + delta <=? datetime_max)
  then Ok (t + delta)
  else Err OverflowError.

(** [time(h, m)] *)
Definition mk_time (h m : Z) : time := (h * 60 + m) * usec_per_minute.

(** [datetime.combine(d, t)] *)
Definition combine (d : date) (t : time) : datetime := d * usec_per_day + t.

(** [func.date(ts)]: the calendar day a timestamp falls on. *)
Definition date_of (ts : datetime) : date := ts / usec_per_day.

(** ** Schemas *)

Inductive AppointmentStatus :=
  | CONFIRMED
  | CANCELLED
  | COMPLETED
  | NO_SHOW
  | RESCHEDULED.

#[global] Instance AppointmentStatus_eq_dec : EqDecision AppointmentStatus.
Proof. solve_decision. Defined.

Module TimeSlot.
Record t := mk {
  start_time : datetime;
  end_time : datetime;
  available : bool;
  staff_id : option string
}.
End TimeSlot.

#[global] Instance TimeSlot_eq_dec : EqDecision TimeSlot.t.
Proof. solve_decision. Defined.

(** ** Slot generator *)

(** The [while] loop of [_generate_time_slots]; [fuel] bounds the number
    of iterations.  The guard and the body each evaluate
    [current_datetime + timedelta(minutes=duration)], and the body ends
    with [current_datetime += timedelta(minutes=30)]; an addition that
    leaves the calendar raises and the slots gathered so far are lost. *)
Fixpoint generate_loop (fuel : nat) (current_datetime end_datetime : datetime)
    (duration : Z) : result (list TimeSlot.t) :=
  match fuel with
  | O => Ok []
  | S fuel' =>
      guard ← timedelta_checked duration ≫= datetime_add current_datetime;
      if guard <=? end_datetime then
        slot_end ← timedelta_checked duration ≫= datetime_add current_datetime;
        next ← datetime_add current_datetime (timedelta 30);
        slots ← generate_loop fuel' next end_datetime duration;
        Ok (TimeSlot.mk current_datetime slot_end true None :: slots)
      else Ok []
  end.

(** Number of times the loop guard holds, starting from [current]. *)
Definition iterations (current end_datetime : datetime) (duration : Z) : nat :=
  Z.to_nat ((end_datetime - current - timedelta duration) / timedelta 30 + 1).

Definition _generate_time_slots (d : date) (start_time end_time : time)
    (duration : Z) : result (list TimeSlot.t) :=
  let current_datetime := combine d start_time in
  let end_datetime := combine d end_time in
  generate_loop (S (iterations current_datetime end_datetime duration))
    current_datetime end_datetime duration.

(** The slots gathered by [fuel] iterations when no addition leaves the
    calendar: the list a returning [generate_loop] returns. *)
Fixpoint slot_list (fuel : nat) (current_datetime end_datetime : datetime)
    (duration : Z) : list TimeSlot.t :=
  match fuel with
  | O => []
  | S fuel' =>
      if current_datetime + timedelta duration <=? end_datetime then
        let slot_end := current_datetime + timedelta duration in
        TimeSlot.mk current_datetime slot_end true None
          :: slot_list fuel' (current_datetime + timedelta 30)
               end_datetime duration
      else []
  end.

(** ** Relational store

    The rows of [app/core/database.py] that the scheduling core reads and
    writes.  Clock-derived columns ([created_at], [updated_at]) play no
    part in any decision and are left out. *)

Module Customer.
Record t := mk { id : string; name : string; is_active : bool }.
End Customer.

Module Staff.
Record t := mk { id : string; name : string; is_active : bool }.
End Staff.

Module Service.
Record t := mk {
  id : string;
  name : string;
  duration : Z;   (* minutes *)
  is_active : bool
}.
End Service.

Module Appointment.
Record t := mk {
  id : string;
  customer_id : string;
  staff_id : string;
  service_id : string;
  start_time : datetime;
  end_time : datetime;
  status : AppointmentStatus;
  notes : option string;
  cancellation_reason : option string
}.

Definition set_status (st : AppointmentStatus) (a : t) : t :=
  mk (id a) (customer_id a) (staff_id a) (service_id a)
     (start_time a) (end_time a) st (notes a) (cancellation_reason a).

Definition set_interval (s e : datetime) (a : t) : t :=
  mk (id a) (customer_id a) (staff_id a) (service_id a)
     s e (status a) (notes a) (cancellation_reason a).

Definition set_notes (n : option string) (a : t) : t :=
  mk (id a) (customer_id a) (staff_id a) (service_id a)
     (start_time a) (end_time a) (status a) n (cancellation_reason a).

Definition set_cancellation_reason (r : option string) (a : t) : t :=
  mk (id a) (customer_id a) (staff_id a) (service_id a)
     (start_time a) (end_time a) (status a) (notes a) r.
End Appointment.

Record Database := mkDatabase {
  customers : list Customer.t;
  staff : list Staff.t;
  services : list Service.t;
  appointments : list Appointment.t
}.

Definition set_appointments (l : list Appointment.t) (db : Database) : Database :=
  mkDatabase (customers db) (staff db) (services db) l.

(** [session.get(Model, key)] *)
Definition get_customer (db : Database) (k : string) : option Customer.t :=
  List.find (λ c, String.eqb (Customer.id c) k) (customers db).

Definition get_service (db : Database) (k : string) : option Service.t :=
  List.find (λ s, String.eqb (Service.id s) k) (services db).

Definition get_staff (db : Database) (k : string) : option Staff.t :=
  List.find (λ s, String.eqb (Staff.id s) k) (staff db).

Definition get_appointment (db : Database) (k : string) : option Appointment.t :=
  List.find (λ a, String.eqb (Appointment.id a) k) (appointments db).

(** Attribute writes on the loaded row followed by [session.commit()]:
    the row with primary key [k] is replaced by its image under [f]. *)
Definition update_appointment (k : string) (f : Appointment.t → Appointment.t)
    (db : Database) : Database :=
  set_appointments
    (map (λ a, if String.eqb (Appointment.id a) k then f a else a)
         (appointments db))
    db.

(** ** Query results *)

(** [Result.scalar_one_or_none()] *)
Definition scalar_one_or_none {A} (rows : list A) : result (option A) :=
  match rows with
  | [] => Ok None
  | [x] => Ok (Some x)
  | _ :: _ :: _ => Err MultipleResultsFound
  end.

(** Truth value of an [Optional[str]] argument. *)
Definition truthy (s : option string) : bool :=
  match s with
  | Some s => negb (String.eqb s "")
  | None => false
  end.

(** [Appointment.status.in_([CONFIRMED, RESCHEDULED])] *)
Definition status_in_active (st : AppointmentStatus) : bool :=
  match st with
  | CONFIRMED | RESCHEDULED => true
  | _ => false
  end.

(** ** Availability filter *)

(** The test of the inner loop of [_filter_available_slots]. *)
Definition slot_hits (slot : TimeSlot.t) (a : Appointment.t) : bool :=
  (TimeSlot.start_time slot <? Appointment.end_time a)
  && (Appointment.start_time a <? TimeSlot.end_time slot).

(** Inner loop: [is_available] starts [True] and the loop breaks at the
    first appointment the slot hits. *)
Fixpoint is_available (slot : TimeSlot.t) (appts : list Appointment.t) : bool :=
  match appts with
  | [] => true
  | a :: rest => if slot_hits slot a then false else is_available slot rest
  end.

Fixpoint _filter_available_slots (slots : list TimeSlot.t)
    (appts : list Appointment.t) : list TimeSlot.t :=
  match slots with
  | [] => []
  | slot :: rest =>
      if is_available slot appts
      then slot :: _filter_available_slots rest appts
      else _filter_available_slots rest appts
  end.

Module AvailabilityResponse.
Record t := mk {
  date : date;
  service_id : string;
  available_slots : list TimeSlot.t;
  staff_availability : gmap string (list TimeSlot.t)
}.
End AvailabilityResponse.

(** [get_all_staff()] with its default [active_only=True]. *)
Definition get_all_staff (db : Database) : list Staff.t :=
  List.filter Staff.is_active (staff db).

(** The [select(Appointment).where(...)] of [check_availability]. *)
Definition existing_appointments (db : Database) (d : date) (service_id : string)
    (staff_id : option string) : list Appointment.t :=
  List.filter
    (λ a, (date_of (Appointment.start_time a) =? d)
          && status_in_active (Appointment.status a)
          && String.eqb (Appointment.service_id a) service_id
          && (if truthy staff_id
              then match staff_id with
                   | Some sid => String.eqb (Appointment.staff_id a) sid
                   | None => true
                   end
              else true))
    (appointments db).

(** [duration or service.duration] *)
Definition duration_or (duration : option Z) (default : Z) : Z :=
  match duration with
  | Some d => if d =? 0 then default else d
  | None => default
  end.

Definition check_availability (db : Database) (d : date) (service_id : string)
    (staff_id : option string) (duration : option Z)
    : result AvailabilityResponse.t :=
  match get_service db service_id with
  | None => Err (ValueError "Service not found")
  | Some service =>
      let duration := duration_or duration (Service.duration service) in
      let business_start := mk_time 9 0 in
      let business_end := mk_time 17 0 in
      slots ← _generate_time_slots d business_start business_end duration;
      let existing := existing_appointments db d service_id staff_id in
      let available_slots := _filter_available_slots slots existing in
      let staff_availability :=
        if negb (truthy staff_id) then
          foldl (λ (acc : gmap string (list TimeSlot.t)) st,
                   <[Staff.id st :=
                       _filter_available_slots slots
                         (List.filter
                            (λ apt, String.eqb (Appointment.staff_id apt)
                                               (Staff.id st))
                            existing)]> acc)
                ∅ (get_all_staff db)
        else ∅ in
      Ok (AvailabilityResponse.mk d service_id available_slots staff_availability)
  end.

(** ** Graph store

    The property graph behind [app/core/graph_db.py].  Node identity is
    the [id] property, which [create_schema] constrains to be unique per
    label; relationships are only ever written with [MERGE], so there is
    at most one of each type between two nodes and they are keyed by their
    end points.  Properties that a Cypher expression may find missing are
    optional.  Numeric properties are exact rationals standing for the
    driver's doubles. *)

Module ServiceNode.
Record t := mk {
  name : option string;
  description : option string;
  price : option Q;
  duration : option Z
}.
End ServiceNode.

Module StaffNode.
Record t := mk { name : option string }.
End StaffNode.

Module AppointmentNode.
Record t := mk {
  customer_id : string;     (* BOOKED, from the customer *)
  staff_id : string;        (* ASSIGNED_TO *)
  service_id : string;      (* FOR_SERVICE *)
  start_time : datetime;
  end_time : datetime;
  status : AppointmentStatus;
  satisfaction : option Q
}.
End AppointmentNode.

Module Prefers.
Record t := mk { strength : option Q; count : option Z }.
End Prefers.

Module WorkedWith.
Record t := mk { satisfaction : option Q; count : option Z }.
End WorkedWith.

Module SpecializesIn.
Record t := mk { expertise_level : option Q }.
End SpecializesIn.

Record GraphDatabase := mkGraph {
  reachable : bool;   (* whether [session.run] succeeds *)
  customer_nodes : gset string;
  staff_nodes : gmap string StaffNode.t;
  service_nodes : gmap string ServiceNode.t;
  appointment_nodes : gmap string AppointmentNode.t;
  prefers : gmap (string * string) Prefers.t;            (* customer, service *)
  worked_with : gmap (string * string) WorkedWith.t;     (* customer, staff *)
  specializes_in : gmap (string * string) SpecializesIn.t; (* staff, service *)
  complements : gset (string * string)                   (* service, service *)
}.

Definition empty_graph : GraphDatabase :=
  mkGraph true ∅ ∅ ∅ ∅ ∅ ∅ ∅ ∅.

Definition set_prefers (p : gmap (string * string) Prefers.t)
    (g : GraphDatabase) : GraphDatabase :=
  mkGraph (reachable g) (customer_nodes g) (staff_nodes g) (service_nodes g)
    (appointment_nodes g) p (worked_with g) (specializes_in g) (complements g).

Definition set_worked_with (w : gmap (string * string) WorkedWith.t)
    (g : GraphDatabase) : GraphDatabase :=
  mkGraph (reachable g) (customer_nodes g) (staff_nodes g) (service_nodes g)
    (appointment_nodes g) (prefers g) w (specializes_in g) (complements g).

Definition set_appointment_nodes (a : gmap string AppointmentNode.t)
    (g : GraphDatabase) : GraphDatabase :=
  mkGraph (reachable g) (customer_nodes g) (staff_nodes g) (service_nodes g)
    a (prefers g) (worked_with g) (specializes_in g) (complements g).

(** [COALESCE(x, d)] *)
Definition coalesce {A} (x : option A) (d : A) : A := default d x.

(** [create_appointment_node]: the three [MATCH]es must each find their
    node for the [CREATE]s to run; the uniqueness constraint on
    [Appointment.id] rejects a second node with the same id. *)
Definition create_appointment_node (g : GraphDatabase) (a : Appointment.t)
    : GraphDatabase * result unit :=
  if negb (reachable g) then (g, Err GraphStoreError)
  else if bool_decide (Appointment.customer_id a ∈ customer_nodes g)
          && bool_decide (is_Some (staff_nodes g !! Appointment.staff_id a))
          && bool_decide (is_Some (service_nodes g !! Appointment.service_id a))
  then
    match appointment_nodes g !! Appointment.id a with
    | Some _ => (g, Err GraphStoreError)
    | None =>
        (set_appointment_nodes
           (<[Appointment.id a :=
                AppointmentNode.mk (Appointment.customer_id a)
                  (Appointment.staff_id a) (Appointment.service_id a)
                  (Appointment.start_time a) (Appointment.end_time a)
                  (Appointment.status a) None]> (appointment_nodes g)) g,
         Ok ())
    end
  else (g, Ok ()).

(** [update_customer_preferences]: [MERGE] finds or creates the PREFERS
    relationship, [SET] accumulates on it. *)
Definition update_customer_preferences (g : GraphDatabase)
    (customer_id service_id : string) (satisfaction : Q)
    : GraphDatabase * result unit :=
  if negb (reachable g) then (g, Err GraphStoreError)
  else if bool_decide (customer_id ∈ customer_nodes g)
          && bool_decide (is_Some (service_nodes g !! service_id))
  then
    let r := prefers g !! (customer_id, service_id) in
    let r' := Prefers.mk
                (Some (coalesce (r ≫= Prefers.strength) 0 + satisfaction)%Q)
                (Some (coalesce (r ≫= Prefers.count) 0 + 1)) in
    (set_prefers (<[(customer_id, service_id) := r']> (prefers g)) g, Ok ())
  else (g, Ok ()).

(** [update_appointment_feedback] *)
Definition update_appointment_feedback (g : GraphDatabase)
    (appointment_id customer_id staff_id : string) (satisfaction : Q)
    : GraphDatabase * result unit :=
  if negb (reachable g) then (g, Err GraphStoreError)
  else
    match appointment_nodes g !! appointment_id with
    | Some a =>
        if bool_decide (customer_id ∈ customer_nodes g)
           && bool_decide (is_Some (staff_nodes g !! staff_id))
        then
          let r := worked_with g !! (customer_id, staff_id) in
          let r' := WorkedWith.mk
                      (Some ((coalesce (r ≫= WorkedWith.satisfaction) 0
                              + satisfaction) / 2)%Q)
                      (Some (coalesce (r ≫= WorkedWith.count) 0 + 1)) in
          let a' := AppointmentNode.mk (AppointmentNode.customer_id a)
                      (AppointmentNode.staff_id a) (AppointmentNode.service_id a)
                      (AppointmentNode.start_time a) (AppointmentNode.end_time a)
                      (AppointmentNode.status a) (Some satisfaction) in
          (set_appointment_nodes (<[appointment_id := a']> (appointment_nodes g))
             (set_worked_with (<[(customer_id, staff_id) := r']> (worked_with g)) g),
           Ok ())
        else (g, Ok ())
    | None => (g, Ok ())
    end.

(** ** Appointment service *)

Record AppointmentService := mkService {
  db : Database;
  graph_db : option GraphDatabase
}.

(** The [or_(and_(...), and_(...))] clause shared by the conflict queries
    of [book_appointment], [_find_available_staff] and
    [reschedule_appointment]. *)
Definition conflict_clause (start_dt end_dt : datetime) (a : Appointment.t)
    : bool :=
  ((Appointment.start_time a <=? start_dt)
   && (start_dt <? Appointment.end_time a))
  || ((Appointment.start_time a <? end_dt)
      && (end_dt <=? Appointment.end_time a)).

(** The conflict query of [book_appointment] and [_find_available_staff]. *)
Definition booking_conflicts (d : Database) (staff_id : string)
    (start_dt end_dt : datetime) : list Appointment.t :=
  List.filter
    (λ a, String.eqb (Appointment.staff_id a) staff_id
          && status_in_active (Appointment.status a)
          && conflict_clause start_dt end_dt a)
    (appointments d).

(** The conflict query of [reschedule_appointment]. *)
Definition reschedule_conflicts (d : Database) (staff_id appointment_id : string)
    (new_start new_end : datetime) : list Appointment.t :=
  List.filter
    (λ a, String.eqb (Appointment.staff_id a) staff_id
          && negb (String.eqb (Appointment.id a) appointment_id)
          && status_in_active (Appointment.status a)
          && conflict_clause new_start new_end a)
    (appointments d).

(** The [for staff in staff_list] loop of [_find_available_staff]. *)
Fixpoint find_available_loop (d : Database) (staff_list : list Staff.t)
    (start_time end_time : datetime) : result (option string) :=
  match staff_list with
  | [] => Ok None
  | st :: rest =>
      match scalar_one_or_none
              (booking_conflicts d (Staff.id st) start_time end_time) with
      | Err e => Err e
      | Ok None => Ok (Some (Staff.id st))
      | Ok (Some _) => find_available_loop d rest start_time end_time
      end
  end.

Definition _find_available_staff (d : Database) (service_id : string)
    (start_time end_time : datetime) : result (option string) :=
  let staff_list := List.filter Staff.is_active (staff d) in
  match staff_list with
  | [] => Ok None
  | _ => find_available_loop d staff_list start_time end_time
  end.

(** [session.add(appointment); await session.commit()]: the insert fails
    on a duplicate primary key or a dangling foreign key. *)
Definition commit_insert (d : Database) (a : Appointment.t) : result Database :=
  match get_appointment d (Appointment.id a) with
  | Some _ => Err IntegrityError
  | None =>
      match get_customer d (Appointment.customer_id a),
            get_staff d (Appointment.staff_id a),
            get_service d (Appointment.service_id a) with
      | Some _, Some _, Some _ =>
          Ok (set_appointments (appointments d ++ [a]) d)
      | _, _, _ => Err IntegrityError
      end
  end.

(** [AppointmentResponse.model_validate(appointment)]: the [end_time]
    validator of [AppointmentBase] runs with [start_time] already
    validated. *)
Definition model_validate (a : Appointment.t) : result Appointment.t :=
  if Appointment.end_time a <=? Appointment.start_time a
  then Err (ValidationError "End time must be after start time")
  else Ok a.

(** [book_appointment].  [new_id] is the primary key drawn for the new
    row; [start_dt] and [end_dt] are the parsed timestamps.  An exception
    reaches the [except] clause, whose [session.rollback()] undoes nothing
    once the commit has happened, and is raised again. *)
Definition book_appointment (svc : AppointmentService) (new_id : string)
    (customer_id service_id : string) (start_dt end_dt : datetime)
    (staff_id notes : option string)
    : AppointmentService * result Appointment.t :=
  match get_customer (db svc) customer_id, get_service (db svc) service_id with
  | Some _, Some _ =>
      let assigned :=
        if negb (truthy staff_id)
        then _find_available_staff (db svc) service_id start_dt end_dt
        else Ok staff_id in
      match assigned with
      | Err e => (svc, Err e)
      | Ok None => (svc, Err (ValueError "No staff available for this time slot"))
      | Ok (Some staff_id) =>
          if negb (truthy (Some staff_id))
          then (svc, Err (ValueError "No staff available for this time slot"))
          else
            match scalar_one_or_none
                    (booking_conflicts (db svc) staff_id start_dt end_dt) with
            | Err e => (svc, Err e)
            | Ok (Some _) => (svc, Err (ValueError "Time slot is not available"))
            | Ok None =>
                let appointment :=
                  Appointment.mk new_id customer_id staff_id service_id
                    start_dt end_dt CONFIRMED notes None in
                match commit_insert (db svc) appointment with
                | Err e => (svc, Err e)
                | Ok db' =>
                    match graph_db svc with
                    | Some g =>
                        match create_appointment_node g appointment with
                        | (g', Err e) => (mkService db' (Some g'), Err e)
                        | (g', Ok _) =>
                            (mkService db' (Some g'), model_validate appointment)
                        end
                    | None => (mkService db' None, model_validate appointment)
                    end
                end
            end
      end
  | _, _ => (svc, Err (ValueError "Customer or service not found"))
  end.

(** [cancel_appointment].  The late-cancellation test only logs. *)
Definition cancel_appointment (svc : AppointmentService)
    (appointment_id : string) (reason : option string)
    : AppointmentService * result bool :=
  match get_appointment (db svc) appointment_id with
  | None => (svc, Err (ValueError "Appointment not found"))
  | Some _ =>
      (mkService
         (update_appointment appointment_id
            (λ a, Appointment.set_cancellation_reason reason
                    (Appointment.set_status CANCELLED a))
            (db svc))
         (graph_db svc),
       Ok true)
  end.

(** [reschedule_appointment] *)
Definition reschedule_appointment (svc : AppointmentService)
    (appointment_id : string) (new_start : datetime)
    : AppointmentService * result Appointment.t :=
  match get_appointment (db svc) appointment_id with
  | None => (svc, Err (ValueError "Appointment not found"))
  | Some appointment =>
      match get_service (db svc) (Appointment.service_id appointment) with
      | None => (svc, Err AttributeError)
      | Some service =>
          let new_end := new_start + timedelta (Service.duration service) in
          match scalar_one_or_none
                  (reschedule_conflicts (db svc) (Appointment.staff_id appointment)
                     appointment_id new_start new_end) with
          | Err e => (svc, Err e)
          | Ok (Some _) => (svc, Err (ValueError "New time slot is not available"))
          | Ok None =>
              let moved :=
                Appointment.set_status RESCHEDULED
                  (Appointment.set_interval new_start new_end appointment) in
              (mkService
                 (update_appointment appointment_id
                    (λ a, Appointment.set_status RESCHEDULED
                            (Appointment.set_interval new_start new_end a))
                    (db svc))
                 (graph_db svc),
               model_validate moved)
          end
      end
  end.

Definition newline : string := String (Ascii.ascii_of_nat 10) "".

(** [f"{appointment.notes or ''}\nFeedback: {feedback}"] *)
Definition feedback_notes (notes : option string) (feedback : string) : string :=
  (if truthy notes then default "" notes else "")
    +:+ newline +:+ "Feedback: " +:+ feedback.

(** [complete_appointment] *)
Definition complete_appointment (svc : AppointmentService)
    (appointment_id : string) (satisfaction : Q) (feedback : option string)
    : AppointmentService * result bool :=
  match get_appointment (db svc) appointment_id with
  | None => (svc, Err (ValueError "Appointment not found"))
  | Some appointment =>
      let db' :=
        update_appointment appointment_id
          (λ a, let a := Appointment.set_status COMPLETED a in
                if truthy feedback
                then Appointment.set_notes
                       (Some (feedback_notes (Appointment.notes a)
                                (default "" feedback))) a
                else a)
          (db svc) in
      match graph_db svc with
      | None => (mkService db' None, Ok true)
      | Some g =>
          match update_customer_preferences g
                  (Appointment.customer_id appointment)
                  (Appointment.service_id appointment) satisfaction with
          | (g1, Err e) => (mkService db' (Some g1), Err e)
          | (g1, Ok _) =>
              match update_appointment_feedback g1 appointment_id
                      (Appointment.customer_id appointment)
                      (Appointment.staff_id appointment) satisfaction with
              | (g2, Err e) => (mkService db' (Some g2), Err e)
              | (g2, Ok _) => (mkService db' (Some g2), Ok true)
              end
          end
      end
  end.

(** ** Scheduling invariants *)

(** Appointments that occupy their staff member's time. *)
Definition active (a : Appointment.t) : Prop :=
  Appointment.status a = CONFIRMED ∨ Appointment.status a = RESCHEDULED.

(** Two half-open intervals overlap. *)
Definition overlap (s1 e1 s2 e2 : datetime) : Prop := s1 < e2 ∧ e1 > s2.

(** The instant [t] lies in the appointment's interval [start, end). *)
Definition covers (a : Appointment.t) (t : datetime) : Prop :=
  Appointment.start_time a <= t < Appointment.end_time a.

(** For every staff member and instant, at most one active appointment
    covers the instant. *)
Definition no_overlap (d : Database) : Prop :=
  ∀ (i j : nat) a b t,
    appointments d !! i = Some a → appointments d !! j = Some b →
    Appointment.staff_id a = Appointment.staff_id b →
    active a → active b → covers a t → covers b t → i = j.


(** ** Scenarios *)

Definition at_ (h m : Z) : datetime := combine 0 (mk_time h m).

Definition alice : Customer.t := Customer.mk "c1" "Alice" true.
Definition sam : Staff.t := Staff.mk "S1" "Sam" true.
Definition sue : Staff.t := Staff.mk "S2" "Sue" true.
Definition swedish : Service.t := Service.mk "swedish" "Swedish Massage" 60 true.
Definition facial : Service.t := Service.mk "facial" "Anti-Aging Facial" 60 true.
Definition ritual : Service.t := Service.mk "ritual" "Spa Ritual" 180 true.

(** Sam holds one confirmed Swedish massage, 10:00 to 11:00. *)
Definition ten_to_eleven : Appointment.t :=
  Appointment.mk "a1" "c1" "S1" "swedish" (at_ 10 0) (at_ 11 0) CONFIRMED None None.

Definition db_one : Database :=
  mkDatabase [alice] [sam; sue] [swedish; facial; ritual] [ten_to_eleven].

Definition db_none : Database :=
  mkDatabase [alice] [sam; sue] [swedish; facial; ritual] [].

(** Sam also holds a confirmed three-hour ritual, 14:00 to 17:00. *)
Definition afternoon_ritual : Appointment.t :=
  Appointment.mk "a2" "c1" "S1" "ritual" (at_ 14 0) (at_ 17 0) CONFIRMED None None.

Definition db_two : Database :=
  mkDatabase [alice] [sam; sue] [swedish; facial; ritual]
    [ten_to_eleven; afternoon_ritual].

(** A graph holding the same customer, staff and services. *)
Definition graph_seeded : GraphDatabase :=
  mkGraph true {["c1"]}
    {["S1" := StaffNode.mk (Some "Sam"); "S2" := StaffNode.mk (Some "Sue")]}
    {["swedish" := ServiceNode.mk (Some "Swedish Massage") None None (Some 60);
      "facial" := ServiceNode.mk (Some "Anti-Aging Facial") None None (Some 60)]}
    ∅ ∅ ∅ ∅ ∅.

(** The same graph with the driver failing. *)
Definition graph_down : GraphDatabase :=
  mkGraph false (customer_nodes graph_seeded) (staff_nodes graph_seeded)
    (service_nodes graph_seeded) ∅ ∅ ∅ ∅ ∅.

(** Status of the row with primary key [k], if there is one. *)
Definition status_of (d : Database) (k : string) : option AppointmentStatus :=
  Appointment.status <$> get_appointment d k.


(** The generated slot from [h1:m1] to [h2:m2] on day 0. *)
Definition slot_at (h1 m1 h2 m2 : Z) : TimeSlot.t :=
  TimeSlot.mk (at_ h1 m1) (at_ h2 m2) true None.

(** Sam's 10:00 appointment with the graph store attached. *)
Definition svc_seeded : AppointmentService :=
  mkService db_one (Some graph_seeded).

(** ** Recommendation queries

    The two Cypher queries of [get_service_recommendations] and
    [get_staff_recommendations], clause by clause, over rows of variable
    bindings.  A variable bound by an [OPTIONAL MATCH] that found nothing
    is null ([None]). *)

(** [OPTIONAL MATCH]: the matches, or a single row of nulls. *)
Definition optional_match {A} (matches : list A) (nulls : A) : list A :=
  match matches with
  | [] => [nulls]
  | _ => matches
  end.

(** [(c)-[:PREFERS]->(x)] for the customer [c]. *)
Definition has_prefers (g : GraphDatabase) (c x : string) : bool :=
  bool_decide (is_Some (prefers g !! (c, x))).

Definition is_service (g : GraphDatabase) (x : string) : bool :=
  bool_decide (is_Some (service_nodes g !! x)).

Definition is_customer (g : GraphDatabase) (x : string) : bool :=
  bool_decide (x ∈ customer_nodes g).

(** [(c)-[:PREFERS]->(s:Service)<-[:PREFERS]-(similar:Customer)
     WHERE similar.id <> c.id]; only [similar] is used later. *)
Definition match_similar (g : GraphDatabase) (c : string) : list (option string) :=
  optional_match
    (map_to_list (prefers g) ≫= λ '((c1, s), _),
       if String.eqb c1 c && is_service g s then
         map_to_list (prefers g) ≫= λ '((similar, s'), _),
           if String.eqb s' s && is_customer g similar
              && negb (String.eqb similar c)
           then [Some similar] else []
       else [])
    None.

(** [(similar)-[r:PREFERS]->(recommended:Service)
     WHERE NOT (c)-[:PREFERS]->(recommended)] *)
Definition match_recommended (g : GraphDatabase) (c : string)
    (similar : option string) : list (option Prefers.t * option string) :=
  match similar with
  | None => [(None, None)]
  | Some sim =>
      optional_match
        (map_to_list (prefers g) ≫= λ '((c2, recommended), r),
           if String.eqb c2 sim && is_service g recommended
              && negb (has_prefers g c recommended)
           then [(Some r, Some recommended)] else [])
        (None, None)
  end.

(** [(c)-[:PREFERS]->(preferred:Service)-[:COMPLEMENTS]->(complement:Service)
     WHERE NOT (c)-[:PREFERS]->(complement)]; only [complement] is used
    later. *)
Definition match_complement (g : GraphDatabase) (c : string)
    : list (option string) :=
  optional_match
    (map_to_list (prefers g) ≫= λ '((c1, preferred), _),
       if String.eqb c1 c && is_service g preferred then
         elements (complements g) ≫= λ '(p, complement),
           if String.eqb p preferred && is_service g complement
              && negb (has_prefers g c complement)
           then [Some complement] else []
       else [])
    None.

Module RecRow.
Record t := mk {
  similar : option string;
  r : option Prefers.t;
  recommended : option string;
  complement : option string
}.
Definition key (row : t) : option string * option string :=
  (recommended row, complement row).
End RecRow.

(** The rows reaching the [WITH] clause. *)
Definition recommendation_rows (g : GraphDatabase) (c : string)
    : list RecRow.t :=
  if is_customer g c then
    match_similar g c ≫= λ similar,
      match_recommended g c similar ≫= λ '(r, recommended),
        match_complement g c ≫= λ complement,
          [RecRow.mk similar r recommended complement]
  else [].

(** [sum(r.strength)]: nulls are skipped, the empty sum is 0. *)
Definition sum_strength (rows : list RecRow.t) : Q :=
  foldr (λ row acc, (coalesce (RecRow.r row ≫= Prefers.strength) 0 + acc)%Q)
        0%Q rows.

(** [count(similar)]: nulls are skipped. *)
Definition count_similar (rows : list RecRow.t) : Z :=
  Z.of_nat (length (List.filter (λ row, bool_decide (is_Some (RecRow.similar row)))
                      rows)).

Module ServiceRecommendation.
Record t := mk {
  service_name : option string;
  description : option string;
  price : option Q;
  duration : option Z;
  score : Q
}.
End ServiceRecommendation.

(** [COALESCE(a, b)] with both arguments nullable. *)
Definition coalesce2 {A} (a b : option A) : option A :=
  match a with
  | Some x => Some x
  | None => b
  end.

(** [x.prop] for a nullable service node variable [x]. *)
Definition service_prop {A} (g : GraphDatabase) (x : option string)
    (prop : ServiceNode.t → option A) : option A :=
  x ≫= λ sid, service_nodes g !! sid ≫= prop.

(** The [WITH ... RETURN] clauses for one group. *)
Definition return_group (g : GraphDatabase) (rows : list RecRow.t)
    (k : option string * option string) : ServiceRecommendation.t :=
  let members := List.filter (λ row, bool_decide (RecRow.key row = k)) rows in
  let similarity_score := sum_strength members in
  let similar_customers := count_similar members in
  ServiceRecommendation.mk
    (coalesce2 (service_prop g k.1 ServiceNode.name)
               (service_prop g k.2 ServiceNode.name))
    (coalesce2 (service_prop g k.1 ServiceNode.description)
               (service_prop g k.2 ServiceNode.description))
    (coalesce2 (service_prop g k.1 ServiceNode.price)
               (service_prop g k.2 ServiceNode.price))
    (coalesce2 (service_prop g k.1 ServiceNode.duration)
               (service_prop g k.2 ServiceNode.duration))
    (similarity_score + inject_Z similar_customers)%Q.

(** [ORDER BY score DESC]: a stable insertion sort. *)
Fixpoint insert_desc {A} (score : A → Q) (x : A) (l : list A) : list A :=
  match l with
  | [] => [x]
  | y :: rest =>
      if Qle_bool (score x) (score y)
      then y :: insert_desc score x rest
      else x :: l
  end.

Definition order_by_desc {A} (score : A → Q) (l : list A) : list A :=
  foldr (insert_desc score) [] l.

(** [get_service_recommendations] *)
Definition get_service_recommendations (g : GraphDatabase)
    (customer_id : string) (limit : nat)
    : result (list ServiceRecommendation.t) :=
  if negb (reachable g) then Err GraphStoreError
  else
    let rows := recommendation_rows g customer_id in
    let groups := remove_dups (RecRow.key <$> rows) in
    Ok (take limit
          (order_by_desc ServiceRecommendation.score
             (return_group g rows <$> groups))).

Module StaffRecommendation.
Record t := mk {
  name : option string;
  staff_id : string;
  previous_satisfaction : Q;
  expertise_level : Q;
  total_score : Q
}.
End StaffRecommendation.

(** [get_staff_recommendations] *)
Definition get_staff_recommendations (g : GraphDatabase)
    (service_id customer_id : string)
    : result (list StaffRecommendation.t) :=
  if negb (reachable g) then Err GraphStoreError
  else if is_service g service_id then
    Ok (order_by_desc StaffRecommendation.total_score
          (map_to_list (specializes_in g) ≫= λ '((st, s), _),
             if String.eqb s service_id then
               match staff_nodes g !! st with
               | Some node =>
                   let worked :=
                     if is_customer g customer_id
                     then worked_with g !! (customer_id, st) else None in
                   let specializes := specializes_in g !! (st, s) in
                   let previous_satisfaction :=
                     coalesce (worked ≫= WorkedWith.satisfaction) 0%Q in
                   let expertise_level :=
                     coalesce (specializes ≫= SpecializesIn.expertise_level)
                              1%Q in
                   [StaffRecommendation.mk (StaffNode.name node) st
                      previous_satisfaction expertise_level
                      (previous_satisfaction + expertise_level)%Q]
               | None => []
               end
             else []))
  else Ok [].

(** A graph with preferences: c1 prefers swedish, c2 prefers swedish and
    facial, swedish complements aroma (and back), Sam specializes in
    swedish. *)
Definition graph_prefs : GraphDatabase :=
  mkGraph true {["c1"; "c2"]}
    {["S1" := StaffNode.mk (Some "Sam"); "S2" := StaffNode.mk (Some "Sue")]}
    {["swedish" := ServiceNode.mk (Some "Swedish Massage") None None (Some 60);
      "facial" := ServiceNode.mk (Some "Anti-Aging Facial") None None (Some 60);
      "aroma" := ServiceNode.mk (Some "Aromatherapy") None None (Some 45)]}
    ∅
    {[("c1", "swedish") := Prefers.mk (Some 1%Q) (Some 1);
      ("c2", "swedish") := Prefers.mk (Some 2%Q) (Some 2);
      ("c2", "facial") := Prefers.mk (Some (1 # 2)) (Some 1)]}
    ∅
    {[("S1", "swedish") := SpecializesIn.mk (Some 3%Q)]}
    {[("swedish", "aroma"); ("aroma", "swedish")]}.

(** A nullable service variable that, when bound, names a service node
    the customer [c] has no PREFERS edge to. *)
Definition not_preferred (g : GraphDatabase) (c : string) (x : option string)
    : Prop :=
  ∀ sid, x = Some sid →
    is_Some (service_nodes g !! sid) ∧ prefers g !! (c, sid) = None.

(** Sam holds two confirmed appointments back to back, 10:00 to 11:00 and
    11:00 to 12:00. *)
Definition eleven_to_twelve : Appointment.t :=
  Appointment.mk "a3" "c1" "S1" "swedish" (at_ 11 0) (at_ 12 0) CONFIRMED None None.

Definition db_back_to_back : Database :=
  mkDatabase [alice] [sam; sue] [swedish; facial; ritual]
    [ten_to_eleven; eleven_to_twelve].

(** Primary keys of the appointments table are pairwise distinct. *)
Definition unique_ids (d : Database) : Prop :=
  NoDup (map Appointment.id (appointments d)).

(** Staff member [p] has exactly one conflicting appointment. *)
Definition one_conflict (d : Database) (s e : datetime) (p : Staff.t) : Prop :=
  ∃ c, booking_conflicts d (Staff.id p) s e = [c].

(** Sam is booked 10:00 to 11:00 and inactive Ann comes first in the
    staff table. *)
Definition ann : Staff.t := Staff.mk "S0" "Ann" false.

Definition db_three_staff : Database :=
  mkDatabase [alice] [ann; sam; sue] [swedish; facial; ritual] [ten_to_eleven].

(** Rows in descending order of [score]. *)
Definition descending {A} (score : A → Q) (l : list A) : Prop :=
  StronglySorted (λ x y, (score y <= score x)%Q) l.

(** The seeded graph after Sam's 10:00 appointment was booked with the
    graph store attached. *)
Definition graph_booked : GraphDatabase :=
  (create_appointment_node graph_seeded ten_to_eleven).1.

(** A reachable graph that knows the staff and services but no customer. *)
Definition graph_no_customer : GraphDatabase :=
  mkGraph true ∅ (staff_nodes graph_seeded) (service_nodes graph_seeded)
    ∅ ∅ ∅ ∅ ∅.

(** Sam and Sue each hold one confirmed appointment, 10:00 to 11:00. *)
Definition sue_ten_to_eleven : Appointment.t :=
  Appointment.mk "a4" "c1" "S2" "facial" (at_ 10 0) (at_ 11 0) CONFIRMED None None.

Definition db_all_busy : Database :=
  mkDatabase [alice] [sam; sue] [swedish; facial; ritual]
    [ten_to_eleven; sue_ten_to_eleven].

(** ** Appointment history *)

(** [[f(x) for x in rows]] with an [f] that may raise: the first failure
    ends the evaluation.  Also the validation of a list field by
    pydantic, which fails when one item fails. *)
Fixpoint validate_all {A B} (f : A → result B) (rows : list A)
    : result (list B) :=
  match rows with
  | [] => Ok []
  | x :: rest => y ← f x; ys ← validate_all f rest; Ok (y :: ys)
  end.

(** [get_customer_appointments].  An empty [status_filter] is falsy and
    filters nothing. *)
Definition get_customer_appointments (d : Database) (customer_id : string)
    (status_filter : option (list AppointmentStatus))
    : result (list Appointment.t) :=
  let query :=
    List.filter (λ a, String.eqb (Appointment.customer_id a) customer_id)
      (appointments d) in
  let query :=
    match status_filter with
    | Some ((_ :: _) as statuses) =>
        List.filter (λ a, bool_decide (Appointment.status a ∈ statuses)) query
    | _ => query
    end in
  validate_all model_validate
    (order_by_desc (λ a, inject_Z (Appointment.start_time a)) query).

(** ** Recommendations for a customer *)

(** Values of a driver record; [record.data()] is a dict from the
    [RETURN] aliases to such values. *)
Inductive value :=
  | VNull
  | VStr (s : string)
  | VInt (z : Z)
  | VFloat (q : Q).

Definition nullable {A} (inj : A → value) (x : option A) : value :=
  match x with
  | Some a => inj a
  | None => VNull
  end.

(** A row of [get_service_recommendations] under the aliases of its
    [RETURN] clause. *)
Definition service_record (r : ServiceRecommendation.t)
    : gmap string value :=
  <["service_name" := nullable VStr (ServiceRecommendation.service_name r)]>
  (<["description" := nullable VStr (ServiceRecommendation.description r)]>
  (<["price" := nullable VFloat (ServiceRecommendation.price r)]>
  (<["duration" := nullable VInt (ServiceRecommendation.duration r)]>
  (<["score" := VFloat (ServiceRecommendation.score r)]> ∅)))).

(** A row of [get_staff_recommendations] under the aliases of its
    [RETURN] clause. *)
Definition staff_record (r : StaffRecommendation.t)
    : gmap string value :=
  <["name" := nullable VStr (StaffRecommendation.name r)]>
  (<["staff_id" := VStr (StaffRecommendation.staff_id r)]>
  (<["previous_satisfaction" :=
       VFloat (StaffRecommendation.previous_satisfaction r)]>
  (<["expertise_level" := VFloat (StaffRecommendation.expertise_level r)]>
  (<["total_score" := VFloat (StaffRecommendation.total_score r)]> ∅)))).

(** The [ServiceRecommendation] schema. *)
Module ServiceRecommendationSchema.
Record t := mk {
  service_id : string;
  service_name : string;
  description : string;
  price : Q;
  duration : Z;
  score : Q;
  reasons : list string
}.
End ServiceRecommendationSchema.

(** The [StaffRecommendation] schema. *)
Module StaffRecommendationSchema.
Record t := mk {
  staff_id : string;
  staff_name : string;
  expertise_level : Q;
  previous_satisfaction : Q;
  total_score : Q;
  specializations : list string
}.
End StaffRecommendationSchema.

Module RecommendationResponse.
Record t := mk {
  customer_id : string;
  service_recommendations : list ServiceRecommendationSchema.t;
  staff_recommendations : list StaffRecommendationSchema.t
}.
End RecommendationResponse.

(** How pydantic turns a value that is present into a [str], a [float]
    or an [int] field.  The coercion rules are left open: what follows
    holds for any of them. *)
Record coercion := mkCoercion {
  as_str : value → result string;
  as_float : value → result Q;
  as_int : value → result Z
}.

(** A field without a default. *)
Definition required (d : gmap string value) (k : string) : result value :=
  match d !! k with
  | Some v => Ok v
  | None => Err (ValidationError "Field required")
  end.

(** Validation of a dict as a [ServiceRecommendation]; keys the schema
    does not name are ignored, [reasons] takes its default. *)
Definition validate_service_recommendation (co : coercion)
    (d : gmap string value)
    : result ServiceRecommendationSchema.t :=
  service_id ← required d "service_id" ≫= as_str co;
  service_name ← required d "service_name" ≫= as_str co;
  description ← required d "description" ≫= as_str co;
  price ← required d "price" ≫= as_float co;
  duration ← required d "duration" ≫= as_int co;
  score ← required d "score" ≫= as_float co;
  Ok (ServiceRecommendationSchema.mk service_id service_name description
        price duration score []).

(** Validation of a dict as a [StaffRecommendation]. *)
Definition validate_staff_recommendation (co : coercion)
    (d : gmap string value)
    : result StaffRecommendationSchema.t :=
  staff_id ← required d "staff_id" ≫= as_str co;
  staff_name ← required d "staff_name" ≫= as_str co;
  expertise_level ← required d "expertise_level" ≫= as_float co;
  previous_satisfaction ← required d "previous_satisfaction" ≫= as_float co;
  total_score ← required d "total_score" ≫= as_float co;
  Ok (StaffRecommendationSchema.mk staff_id staff_name expertise_level
        previous_satisfaction total_score []).

(** [get_recommendations].  The response is built inside the [try], so
    a validation error of its fields reaches the [except] clause as well,
    which answers with the empty response. *)
Definition get_recommendations (co : coercion) (svc : AppointmentService)
    (customer_id : string) (service_id : option string) (limit : nat)
    : RecommendationResponse.t :=
  let empty := RecommendationResponse.mk customer_id [] [] in
  match graph_db svc with
  | None => empty
  | Some g =>
      let response :=
        service_recs ← get_service_recommendations g customer_id limit;
        staff_recs ←
          (if truthy service_id
           then get_staff_recommendations g (default "" service_id) customer_id
           else Ok []);
        services ← validate_all (validate_service_recommendation co)
                      (service_record <$> service_recs);
        staff ← validate_all (validate_staff_recommendation co)
                   (staff_record <$> staff_recs);
        Ok (RecommendationResponse.mk customer_id services staff) in
      match response with
      | Ok r => r
      | Err _ => empty
      end
  end.

(** The strictest reading of the coercions: only a value of the field's
    own type is taken. *)
Definition strict : coercion :=
  mkCoercion
    (λ v, match v with
          | VStr s => Ok s
          | _ => Err (ValidationError "Input should be a valid string")
          end)
    (λ v, match v with
          | VFloat q => Ok q
          | VInt z => Ok (inject_Z z)
          | _ => Err (ValidationError "Input should be a valid number")
          end)
    (λ v, match v with
          | VInt z => Ok z
          | _ => Err (ValidationError "Input should be a valid integer")
          end).

(** ** Slot generator: properties *)

Lemma timedelta_30_pos : 0 < timedelta 30.
Proof. unfold timedelta, usec_per_minute. lia. Qed.


Lemma iterations_step cur e d :
  cur + timedelta d <= e →
  iterations cur e d = S (iterations (cur + timedelta 30) e d).
Proof.
  intros H. unfold iterations.
  pose proof timedelta_30_pos as Hp.
  replace (e - cur - timedelta d)
    with ((e - (cur + timedelta 30) - timedelta d) + 1 * timedelta 30) by lia.
  rewrite Z.div_add by lia.
  assert (-1 <= (e - (cur + timedelta 30) - timedelta d) / timedelta 30).
  { apply Z.div_le_lower_bound; lia. }
  lia.
Qed.

(** Once the fuel exceeds [iterations], the loop runs until its guard
    fails: more fuel changes nothing. *)
Lemma slot_list_fuel f1 f2 cur e d :
  (iterations cur e d < f1)%nat → (iterations cur e d < f2)%nat →
  slot_list f1 cur e d = slot_list f2 cur e d.
Proof.
  revert f2 cur. induction f1 as [|f1 IH]; intros [|f2] cur H1 H2; try lia.
  cbn [slot_list].
  destruct (Z.leb_spec (cur + timedelta d) e) as [Hle|Hgt]; [|done].
  rewrite iterations_step in H1, H2 by done.
  f_equal. apply IH; lia.
Qed.

(** The loop equation of the source's [while]. *)
Lemma slot_list_unfold cur e d :
  slot_list (S (iterations cur e d)) cur e d
  = if cur + timedelta d <=? e
    then TimeSlot.mk cur (cur + timedelta d) true None
           :: slot_list (S (iterations (cur + timedelta 30) e d))
                (cur + timedelta 30) e d
    else [].
Proof.
  destruct (Z.leb_spec (cur + timedelta d) e) as [Hle|Hgt].
  - rewrite iterations_step by done.
    remember (S (iterations (cur + timedelta 30) e d)) as n eqn:Hn.
    cbn [slot_list]. by rewrite (proj2 (Z.leb_le _ _) Hle).
  - cbn [slot_list]. by rewrite (proj2 (Z.leb_gt _ _) Hgt).
Qed.

Lemma slot_list_lookup n : ∀ cur e d (i : nat) slot,
  iterations cur e d = n →
  slot_list (S n) cur e d !! i = Some slot →
  TimeSlot.start_time slot = cur + Z.of_nat i * timedelta 30
  ∧ TimeSlot.end_time slot = TimeSlot.start_time slot + timedelta d
  ∧ TimeSlot.end_time slot <= e.
Proof.
  induction n as [|n IH]; intros cur e d i slot Hn Hi;
    rewrite <- Hn, slot_list_unfold in Hi;
    destruct (Z.leb_spec (cur + timedelta d) e) as [Hle|Hgt]; try done;
    rewrite iterations_step in Hn by done; [done|].
  destruct i as [|i]; simplify_eq/=; [lia|].
  apply IH in Hi as (Hs & He & Hb); [|lia].
  rewrite Hs. repeat split; lia.
Qed.

Lemma slot_list_complete (i : nat) : ∀ cur e d,
  cur + Z.of_nat i * timedelta 30 + timedelta d <= e →
  is_Some (slot_list (S (iterations cur e d)) cur e d !! i).
Proof.
  pose proof timedelta_30_pos as Hp.
  induction i as [|i IH]; intros cur e d Hle; rewrite slot_list_unfold.
  - rewrite (proj2 (Z.leb_le _ _)) by lia. by eexists.
  - rewrite (proj2 (Z.leb_le _ _)) by nia. cbn [lookup list_lookup].
    apply IH. lia.
Qed.

(** *** The loop on checked arithmetic *)

Lemma timedelta_checked_ok m delta :
  timedelta_checked m = Ok delta → delta = timedelta m.
Proof. unfold timedelta_checked. case_match; congruence. Qed.

Lemma timedelta_checked_returns m :
  -999999999 * 1440 <= m <= 999999999 * 1440 →
  timedelta_checked m = Ok (timedelta m).
Proof.
  intros [Hlo Hhi]. unfold timedelta_checked.
  assert (-999999999 <= m / 1440 <= 999999999) as Hd.
  { split; [apply Z.div_le_lower_bound; lia|].
    apply Z.div_le_upper_bound; lia. }
  destruct (Z.gtb_spec (Z.abs (m / 1440)) 999999999); [lia|done].
Qed.

Lemma datetime_add_ok t delta r :
  datetime_add t delta = Ok r →
  r = t + delta ∧ datetime_min <= r <= datetime_max.
Proof.
  unfold datetime_add.
  destruct (Z.leb_spec datetime_min (t + delta));
    destruct (Z.leb_spec (t + delta) datetime_max); simpl; intros [= <-].
  lia.
Qed.

Lemma datetime_add_returns t delta :
  datetime_min <= t + delta <= datetime_max →
  datetime_add t delta = Ok (t + delta).
Proof.
  intros [Hlo Hhi]. unfold datetime_add.
  by rewrite (proj2 (Z.leb_le _ _) Hlo), (proj2 (Z.leb_le _ _) Hhi).
Qed.

(** One turn of the loop, with the binds spelled out. *)
Lemma generate_loop_step fuel cur e d :
  generate_loop (S fuel) cur e d
  = match timedelta_checked d with
    | Err err => Err err
    | Ok delta =>
        match datetime_add cur delta with
        | Err err => Err err
        | Ok guard =>
            if guard <=? e then
              match datetime_add cur (timedelta 30) with
              | Err err => Err err
              | Ok next =>
                  match generate_loop fuel next e d with
                  | Err err => Err err
                  | Ok slots => Ok (TimeSlot.mk cur guard true None :: slots)
                  end
              end
            else Ok []
        end
    end.
Proof.
  cbn [generate_loop]. unfold mbind, result_bind.
  destruct (timedelta_checked d) as [delta|]; [|done].
  destruct (datetime_add cur delta) as [guard|]; [|done].
  by destruct (guard <=? e).
Qed.

(** A loop that returns has gathered the slots of [slot_list]. *)
Lemma generate_loop_ok fuel : ∀ cur e d slots,
  generate_loop fuel cur e d = Ok slots → slots = slot_list fuel cur e d.
Proof.
  induction fuel as [|fuel IH]; intros cur e d slots; [by intros [= <-]|].
  rewrite generate_loop_step. cbn [slot_list].
  destruct (timedelta_checked d) as [delta|] eqn:Hd; [|done].
  apply timedelta_checked_ok in Hd as ->.
  destruct (datetime_add cur (timedelta d)) as [guard|] eqn:Hg; [|done].
  apply datetime_add_ok in Hg as [-> _].
  destruct (cur + timedelta d <=? e); [|by intros [= <-]].
  destruct (datetime_add cur (timedelta 30)) as [next|] eqn:Hn; [|done].
  apply datetime_add_ok in Hn as [-> _].
  destruct (generate_loop fuel _ e d) as [rest|] eqn:Hrest; [|done].
  intros [= <-]. by rewrite (IH _ _ _ _ Hrest).
Qed.

(** The loop returns when the duration is not negative, the first slot
    end is on the calendar and so is half an hour past the end of the
    window. *)
Lemma generate_loop_returns fuel : ∀ cur e d,
  0 <= d → datetime_min <= cur →
  cur + timedelta d <= datetime_max → e + timedelta 30 <= datetime_max →
  generate_loop fuel cur e d = Ok (slot_list fuel cur e d).
Proof.
  pose proof timedelta_30_pos as Hp.
  induction fuel as [|fuel IH]; intros cur e d Hd Hmin Hmax He; [done|].
  rewrite generate_loop_step. cbn [slot_list].
  assert (0 <= timedelta d) as Hdd by (unfold timedelta, usec_per_minute; lia).
  rewrite timedelta_checked_returns.
  2: { unfold datetime_min, datetime_max, usec_per_day, timedelta,
         usec_per_minute in *. lia. }
  rewrite datetime_add_returns by lia.
  destruct (Z.leb_spec (cur + timedelta d) e) as [Hle|Hgt]; [|done].
  rewrite datetime_add_returns by lia.
  rewrite IH by lia. done.
Qed.

(** Once the fuel exceeds [iterations], more fuel changes nothing, whether
    the loop returns or raises. *)
Lemma generate_loop_fuel f1 : ∀ f2 cur e d,
  (iterations cur e d < f1)%nat → (iterations cur e d < f2)%nat →
  generate_loop f1 cur e d = generate_loop f2 cur e d.
Proof.
  induction f1 as [|f1 IH]; intros [|f2] cur e d H1 H2; try lia.
  rewrite !generate_loop_step.
  destruct (timedelta_checked d) as [delta|] eqn:Hd; [|done].
  apply timedelta_checked_ok in Hd as ->.
  destruct (datetime_add cur (timedelta d)) as [guard|] eqn:Hg; [|done].
  apply datetime_add_ok in Hg as [-> _].
  destruct (Z.leb_spec (cur + timedelta d) e) as [Hle|Hgt]; [|done].
  destruct (datetime_add cur (timedelta 30)) as [next|] eqn:Hn; [|done].
  apply datetime_add_ok in Hn as [-> _].
  rewrite iterations_step in H1, H2 by done.
  rewrite (IH f2) by lia. done.
Qed.

Lemma generate_time_slots_ok d open close dur slots :
  _generate_time_slots d open close dur = Ok slots →
  slots = slot_list (S (iterations (combine d open) (combine d close) dur))
            (combine d open) (combine d close) dur.
Proof. apply generate_loop_ok. Qed.

Lemma generate_time_slots_returns d open close dur :
  valid_date d → valid_time open → valid_time close → 0 <= dur →
  combine d open + timedelta dur <= datetime_max →
  combine d close + timedelta 30 <= datetime_max →
  _generate_time_slots d open close dur
  = Ok (slot_list (S (iterations (combine d open) (combine d close) dur))
          (combine d open) (combine d close) dur).
Proof.
  intros [Hd _] [Ho _] _ Hdur Hfirst Hlast.
  apply generate_loop_returns; try done.
  unfold datetime_min, combine, usec_per_day, usec_per_minute in *. lia.
Qed.

(** C7. Whenever the slot generator returns, it returns, in order of
    start time, the half-open intervals [t, t + d) for t = open,
    open + 30 min, open + 60 min, ...: every slot has length d and lies
    inside [open, close), and every such t whose interval fits is present.
    It returns for every valid date and window and every duration d >= 0
    for which open + d and close + 30 min are still on the calendar.
    Being a function of its arguments it is deterministic and has no
    effects. *)
Theorem generate_time_slots_spec (d : date) (open close : time) (dur : Z) :
  (∀ slots, _generate_time_slots d open close dur = Ok slots →
     (∀ (i : nat) slot, slots !! i = Some slot →
        TimeSlot.start_time slot = combine d open + Z.of_nat i * timedelta 30
        ∧ TimeSlot.end_time slot = TimeSlot.start_time slot + timedelta dur
        ∧ combine d open <= TimeSlot.start_time slot
        ∧ TimeSlot.end_time slot <= combine d close)
     ∧ (∀ (i j : nat) si sj, (i < j)%nat →
          slots !! i = Some si → slots !! j = Some sj →
          TimeSlot.start_time si < TimeSlot.start_time sj)
     ∧ (∀ i : nat,
          combine d open + Z.of_nat i * timedelta 30 + timedelta dur
            <= combine d close →
          is_Some (slots !! i)))
  ∧ (valid_date d → valid_time open → valid_time close → 0 <= dur →
     combine d open + timedelta dur <= datetime_max →
     combine d close + timedelta 30 <= datetime_max →
     ∃ slots, _generate_time_slots d open close dur = Ok slots).
Proof.
  pose proof timedelta_30_pos as Hp. split.
  - intros slots ->%generate_time_slots_ok. split; [|split].
    + intros i slot Hi.
      apply slot_list_lookup in Hi as (Hs & He & Hb); [|done].
      repeat split; try done. lia.
    + intros i j si sj Hij Hi Hj.
      apply slot_list_lookup in Hi as (Hsi & _); [|done].
      apply slot_list_lookup in Hj as (Hsj & _); [|done].
      rewrite Hsi, Hsj. nia.
    + intros i Hle. by apply slot_list_complete.
  - intros. eexists. by apply generate_time_slots_returns.
Qed.

Lemma generate_time_slots_spec_witness :
  ∃ slots,
    _generate_time_slots 0 (mk_time 9 0) (mk_time 17 0) 60 = Ok slots
    ∧ is_Some (slots !! 14%nat).
Proof.
  destruct (generate_time_slots_spec 0 (mk_time 9 0) (mk_time 17 0) 60)
    as [Hspec Hreturns].
  destruct Hreturns as [slots Hslots].
  - unfold valid_date. lia.
  - unfold valid_time. vm_compute. split; [discriminate|reflexivity].
  - unfold valid_time. vm_compute. split; [discriminate|reflexivity].
  - lia.
  - vm_compute. discriminate.
  - vm_compute. discriminate.
  - exists slots. split; [exact Hslots|].
    apply (proj2 (proj2 (Hspec slots Hslots)) 14%nat).
    vm_compute. discriminate.
Defined.

Example generate_time_slots_60 :
  _generate_time_slots 0 (mk_time 9 0) (mk_time 11 0) 60
  = Ok [TimeSlot.mk (at_ 9 0) (at_ 10 0) true None;
        TimeSlot.mk (at_ 9 30) (at_ 10 30) true None;
        TimeSlot.mk (at_ 10 0) (at_ 11 0) true None].
Proof. vm_compute. reflexivity. Qed.

(** Day 741083 is 2030-01-07.  A duration of 4294967296 minutes ends
    after the year 9999 and a slot that would start before 0001-01-01
    does not exist: the generator raises. *)
Example generate_time_slots_overflow :
  _generate_time_slots 741083 (mk_time 9 0) (mk_time 17 0) 4294967296
  = Err OverflowError
  ∧ _generate_time_slots 0 (mk_time 9 0) (mk_time 17 0) (-600)
    = Err OverflowError.
Proof. split; vm_compute; reflexivity. Qed.

(** ** Booking: the commit-time conflict check *)

Lemma no_overlap_db_one : no_overlap db_one.
Proof.
  intros i j a b t Hi Hj _ _ _ _ _.
  apply lookup_lt_Some in Hi, Hj. simpl in *. lia.
Qed.

(** C1, evaluated where the code departs from it.  Sam's only appointment
    is 10:00 to 11:00; a booking of Sam for 09:00 to 12:00 passes the
    conflict query, is committed as confirmed, and 10:00 is then covered
    by two of Sam's confirmed appointments. *)
Theorem book_appointment_admits_enclosing_interval :
  let svc := mkService db_one None in
  let r := book_appointment svc "a9" "c1" "swedish" (at_ 9 0) (at_ 12 0)
             (Some "S1") None in
  no_overlap (db svc)
  ∧ overlap (at_ 9 0) (at_ 12 0)
      (Appointment.start_time ten_to_eleven) (Appointment.end_time ten_to_eleven)
  ∧ (∃ a, r.2 = Ok a ∧ Appointment.status a = CONFIRMED
          ∧ appointments (db r.1) = [ten_to_eleven; a])
  ∧ ¬ no_overlap (db r.1).
Proof.
  cbv zeta. split; [apply no_overlap_db_one|]. split; [by vm_compute|].
  split.
  - eexists. split; [vm_compute; reflexivity|]. split; reflexivity.
  - intros H.
    specialize (H 0%nat 1%nat ten_to_eleven
      (Appointment.mk "a9" "c1" "S1" "swedish" (at_ 9 0) (at_ 12 0)
         CONFIRMED None None) (at_ 10 0)).
    assert (0 = 1)%nat as Hbad; [|done].
    apply H; try reflexivity; try (left; reflexivity);
      unfold covers; vm_compute; split; congruence.
Qed.

(** C5, evaluated where the code departs from it.  A booking whose end
    (09:00) precedes its start (10:00) is inserted and committed as a
    confirmed appointment; the validation error is raised only afterwards,
    when the response is built from the stored row. *)
Theorem book_appointment_commits_malformed_interval :
  let svc := mkService db_none None in
  let r := book_appointment svc "a9" "c1" "swedish" (at_ 10 0) (at_ 9 0)
             (Some "S1") None in
  at_ 9 0 <= at_ 10 0
  ∧ appointments (db svc) = []
  ∧ r.2 = Err (ValidationError "End time must be after start time")
  ∧ appointments (db r.1)
    = [Appointment.mk "a9" "c1" "S1" "swedish" (at_ 10 0) (at_ 9 0)
         CONFIRMED None None].
Proof. cbv zeta. repeat split; vm_compute; congruence. Qed.

(** With an unknown customer the same malformed request fails earlier and
    with a different error. *)
Example book_appointment_malformed_unknown_customer :
  (book_appointment (mkService db_none None) "a9" "nobody" "swedish"
     (at_ 10 0) (at_ 9 0) (Some "S1") None).2
  = Err (ValueError "Customer or service not found").
Proof. vm_compute. reflexivity. Qed.

(** ** Booking: failure of the graph write *)

Lemma create_appointment_node_down g a :
  reachable g = false → create_appointment_node g a = (g, Err GraphStoreError).
Proof. intros H. unfold create_appointment_node. by rewrite H. Qed.

Lemma commit_insert_appends d a d' :
  commit_insert d a = Ok d' → appointments d' = appointments d ++ [a].
Proof.
  unfold commit_insert. intros H.
  repeat case_match; simplify_eq. done.
Qed.

(** C2, counterexample.  The relational commit succeeds (the row is in
    the table afterwards) and the graph write fails, yet the call does not
    return the appointment: the graph error reaches the caller. *)
Lemma book_appointment_graph_failure_surfaces :
  let svc := mkService db_none (Some graph_down) in
  let r := book_appointment svc "a9" "c1" "swedish" (at_ 9 0) (at_ 10 0)
             (Some "S1") None in
  appointments (db r.1)
  = [Appointment.mk "a9" "c1" "S1" "swedish" (at_ 9 0) (at_ 10 0)
       CONFIRMED None None]
  ∧ r.2 = Err GraphStoreError
  ∧ ¬ (∃ a, r.2 = Ok a).
Proof.
  cbv zeta. split; [|split].
  - vm_compute. reflexivity.
  - vm_compute. reflexivity.
  - intros [a Ha]. vm_compute in Ha. discriminate.
Qed.

(** C2, amended.  When the graph store fails, [book_appointment] never
    returns an appointment.  Either it fails before the commit with some
    other error and leaves the service state as it was, or the new
    confirmed row is committed, stays committed, and the graph error is
    raised to the caller. *)
Theorem book_appointment_graph_failure svc g new_id customer_id service_id
    start_dt end_dt staff_id notes :
  graph_db svc = Some g → reachable g = false →
  let r := book_appointment svc new_id customer_id service_id start_dt end_dt
             staff_id notes in
  (r.1 = svc ∧ ∃ e, r.2 = Err e ∧ e ≠ GraphStoreError)
  ∨ (r.2 = Err GraphStoreError
     ∧ graph_db r.1 = Some g
     ∧ ∃ st, appointments (db r.1)
             = appointments (db svc)
               ++ [Appointment.mk new_id customer_id st service_id
                     start_dt end_dt CONFIRMED notes None]).
Proof.
  intros Hg Hdown. cbv zeta. unfold book_appointment.
  destruct (get_customer (db svc) customer_id);
    [|left; split; [done|eexists; split; [done|discriminate]]].
  destruct (get_service (db svc) service_id);
    [|left; split; [done|eexists; split; [done|discriminate]]].
  destruct (if negb (truthy staff_id) then _ else _) as [[st|]|e] eqn:Hassigned.
  - destruct (negb (truthy (Some st)));
      [left; split; [done|eexists; split; [done|discriminate]]|].
    destruct (scalar_one_or_none _) as [[c|]|e] eqn:Hconf.
    + left; split; [done|eexists; split; [done|discriminate]].
    + destruct (commit_insert _ _) as [d'|e] eqn:Hcommit.
      * rewrite Hg, create_appointment_node_down by done. right.
        apply commit_insert_appends in Hcommit. simpl. eauto.
      * left; split; [done|eexists; split; [done|]].
        unfold commit_insert in Hcommit. repeat case_match; by simplify_eq.
    + left; split; [done|eexists; split; [done|]].
      unfold scalar_one_or_none in Hconf. repeat case_match; by simplify_eq.
  - left; split; [done|eexists; split; [done|discriminate]].
  - left; split; [done|eexists; split; [done|]].
    destruct (negb (truthy staff_id)); [|done].
    unfold _find_available_staff in Hassigned.
    assert (∀ l, find_available_loop (db svc) l start_dt end_dt = Err e →
                 e ≠ GraphStoreError) as Hloop.
    { induction l as [|x l IH]; simpl; [done|].
      destruct (scalar_one_or_none _) as [[c|]|e'] eqn:Hc; try done.
      intros ?; simplify_eq.
      unfold scalar_one_or_none in Hc. repeat case_match; by simplify_eq. }
    destruct (List.filter _ _); [done|]. by eapply Hloop.
Qed.

Lemma book_appointment_graph_failure_witness :
  let r := book_appointment (mkService db_none (Some graph_down)) "a9" "c1"
             "swedish" (at_ 9 0) (at_ 10 0) (Some "S1") None in
  (r.1 = mkService db_none (Some graph_down)
   ∧ ∃ e, r.2 = Err e ∧ e ≠ GraphStoreError)
  ∨ (r.2 = Err GraphStoreError
     ∧ graph_db r.1 = Some graph_down
     ∧ ∃ st, appointments (db r.1)
             = appointments db_none
               ++ [Appointment.mk "a9" "c1" st "swedish"
                     (at_ 9 0) (at_ 10 0) CONFIRMED None None]).
Proof.
  apply (book_appointment_graph_failure (mkService db_none (Some graph_down))
           graph_down); reflexivity.
Defined.

(** ** Lifecycle *)

Lemma find_map_update k (f : Appointment.t → Appointment.t) l :
  (∀ a, Appointment.id (f a) = Appointment.id a) →
  List.find (λ a, String.eqb (Appointment.id a) k)
    (map (λ a, if String.eqb (Appointment.id a) k then f a else a) l)
  = f <$> List.find (λ a, String.eqb (Appointment.id a) k) l.
Proof.
  intros Hid. induction l as [|a l IH]; [done|]. simpl.
  destruct (String.eqb (Appointment.id a) k) eqn:Hk.
  - by rewrite Hid, Hk.
  - by rewrite Hk.
Qed.

Lemma get_appointment_update k f d :
  (∀ a, Appointment.id (f a) = Appointment.id a) →
  get_appointment (update_appointment k f d) k = f <$> get_appointment d k.
Proof. intros Hid. unfold get_appointment. simpl. by apply find_map_update. Qed.

(** C6, evaluated where the code departs from it.  Sam holds 10:00 to
    11:00 and a three-hour ritual at 14:00.  Moving the ritual to 09:00
    gives 09:00 to 12:00, which overlaps the 10:00 appointment, yet the
    conflict query finds nothing: the call succeeds and the ritual is
    stored on the overlapping interval. *)
Theorem reschedule_appointment_admits_enclosing_interval :
  let svc := mkService db_two None in
  let r := reschedule_appointment svc "a2" (at_ 9 0) in
  let moved := Appointment.mk "a2" "c1" "S1" "ritual" (at_ 9 0) (at_ 12 0)
                 RESCHEDULED None None in
  overlap (at_ 9 0) (at_ 9 0 + timedelta (Service.duration ritual))
    (Appointment.start_time ten_to_eleven) (Appointment.end_time ten_to_eleven)
  ∧ Appointment.staff_id ten_to_eleven = Appointment.staff_id afternoon_ritual
  ∧ active ten_to_eleven
  ∧ r.2 = Ok moved
  ∧ appointments (db r.1) = [ten_to_eleven; moved].
Proof.
  cbv zeta. split; [by vm_compute|]. split; [done|]. split; [by left|].
  split; vm_compute; reflexivity.
Qed.

(** Where the conflict query does find a row, the call fails and nothing
    is written. *)
Lemma reschedule_appointment_detected_conflict svc appointment_id new_start
    appointment service c :
  get_appointment (db svc) appointment_id = Some appointment →
  get_service (db svc) (Appointment.service_id appointment) = Some service →
  reschedule_conflicts (db svc) (Appointment.staff_id appointment)
    appointment_id new_start
    (new_start + timedelta (Service.duration service)) = [c] →
  reschedule_appointment svc appointment_id new_start
  = (svc, Err (ValueError "New time slot is not available")).
Proof.
  intros Ha Hs Hc. unfold reschedule_appointment. by rewrite Ha, Hs, Hc.
Qed.

(** Any failure other than the late response validation leaves the
    service state untouched. *)
Lemma reschedule_appointment_error_unchanged svc appointment_id new_start e :
  (reschedule_appointment svc appointment_id new_start).2 = Err e →
  (∀ msg, e ≠ ValidationError msg) →
  (reschedule_appointment svc appointment_id new_start).1 = svc.
Proof.
  unfold reschedule_appointment. intros H Hne.
  repeat case_match; simplify_eq/=; try done.
  unfold model_validate in *. case_match; simplify_eq.
  by destruct (Hne "End time must be after start time").
Qed.

Lemma lifecycle_status_completed svc k appointment s feedback :
  get_appointment (db svc) k = Some appointment →
  status_of (db (complete_appointment svc k s feedback).1) k = Some COMPLETED.
Proof.
  intros Ha. unfold complete_appointment. rewrite Ha.
  match goal with |- context [update_appointment _ ?f _] => set (f0 := f) end.
  assert (status_of (update_appointment k f0 (db svc)) k = Some COMPLETED)
    as Hst.
  { unfold status_of. rewrite get_appointment_update.
    - rewrite Ha. subst f0. simpl. by destruct (truthy feedback).
    - intros a. subst f0. simpl. by destruct (truthy feedback). }
  repeat case_match; simpl; exact Hst.
Qed.




(** ** Availability *)

Lemma slot_hits_overlap slot a :
  slot_hits slot a = true
  ↔ overlap (TimeSlot.start_time slot) (TimeSlot.end_time slot)
      (Appointment.start_time a) (Appointment.end_time a).
Proof. unfold slot_hits, overlap. rewrite andb_true_iff, !Z.ltb_lt. lia. Qed.

Lemma is_available_spec slot appts :
  is_available slot appts = true
  ↔ ∀ a, a ∈ appts →
      ¬ overlap (TimeSlot.start_time slot) (TimeSlot.end_time slot)
          (Appointment.start_time a) (Appointment.end_time a).
Proof.
  induction appts as [|a appts IH]; simpl.
  - split; [|done]. intros _ a Ha. by apply elem_of_nil in Ha.
  - destruct (slot_hits slot a) eqn:Hhit.
    + split; [done|]. intros H. exfalso.
      apply (H a); [left|]. by apply slot_hits_overlap.
    + rewrite IH. split.
      * intros H b [->|Hb]%elem_of_cons; [|by apply H].
        rewrite <- slot_hits_overlap. by rewrite Hhit.
      * intros H b Hb. apply H. by right.
Qed.

Lemma filter_available_slots_spec slots appts slot :
  slot ∈ _filter_available_slots slots appts
  ↔ slot ∈ slots
    ∧ ∀ a, a ∈ appts →
        ¬ overlap (TimeSlot.start_time slot) (TimeSlot.end_time slot)
            (Appointment.start_time a) (Appointment.end_time a).
Proof.
  rewrite <- is_available_spec.
  induction slots as [|s slots IH]; simpl.
  - split; [intros H|intros [H _]]; by apply elem_of_nil in H.
  - destruct (is_available s appts) eqn:Hs.
    + rewrite !elem_of_cons, IH. split; [|tauto].
      intros [->|[? ?]]; tauto.
    + rewrite elem_of_cons, IH. split; [tauto|].
      intros [[->|?] ?]; [congruence|done].
Qed.

Lemma status_in_active_spec a :
  status_in_active (Appointment.status a) = true ↔ active a.
Proof. unfold active. destruct (Appointment.status a); naive_solver. Qed.

Lemma elem_of_List_filter {A} (f : A → bool) l x :
  x ∈ List.filter f l ↔ x ∈ l ∧ f x = true.
Proof. rewrite !list_elem_of_In. apply filter_In. Qed.

Lemma existing_appointments_spec d day service_id staff_id a :
  a ∈ existing_appointments d day service_id staff_id
  ↔ a ∈ appointments d
    ∧ date_of (Appointment.start_time a) = day
    ∧ active a
    ∧ Appointment.service_id a = service_id
    ∧ (truthy staff_id = true → Some (Appointment.staff_id a) = staff_id).
Proof.
  unfold existing_appointments. rewrite elem_of_List_filter.
  rewrite !andb_true_iff, Z.eqb_eq, status_in_active_spec, String.eqb_eq.
  destruct staff_id as [sid|]; simpl.
  - destruct (negb (String.eqb sid "")); [rewrite String.eqb_eq|]; naive_solver.
  - naive_solver.
Qed.


(** A returned response: the service exists, the generator returned, and
    both fields are filtered from its slots. *)
Lemma check_availability_inv d day service_id staff_id duration resp :
  check_availability d day service_id staff_id duration = Ok resp →
  ∃ service slots,
    get_service d service_id = Some service
    ∧ _generate_time_slots day (mk_time 9 0) (mk_time 17 0)
        (duration_or duration (Service.duration service)) = Ok slots
    ∧ AvailabilityResponse.available_slots resp
      = _filter_available_slots slots
          (existing_appointments d day service_id staff_id)
    ∧ AvailabilityResponse.staff_availability resp
      = if negb (truthy staff_id) then
          foldl (λ (acc : gmap string (list TimeSlot.t)) st,
                   <[Staff.id st :=
                       _filter_available_slots slots
                         (List.filter
                            (λ apt, String.eqb (Appointment.staff_id apt)
                                               (Staff.id st))
                            (existing_appointments d day service_id
                               staff_id))]> acc)
                ∅ (get_all_staff d)
        else ∅.
Proof.
  unfold check_availability.
  destruct (get_service d service_id) as [service|]; [|done].
  unfold mbind, result_bind.
  destruct (_generate_time_slots _ _ _ _) as [slots|] eqn:Hgen; [|done].
  intros [= <-]. by exists service, slots.
Qed.

(** The business day of a valid date is on the calendar: the generator
    returns there as soon as the first slot's end is. *)
Lemma business_day_returns day dur :
  valid_date day → 0 <= dur →
  combine day (mk_time 9 0) + timedelta dur <= datetime_max →
  ∃ slots, _generate_time_slots day (mk_time 9 0) (mk_time 17 0) dur = Ok slots.
Proof.
  intros Hday Hdur Hfirst. eexists.
  apply generate_time_slots_returns; try done.
  unfold valid_date, datetime_max, combine, mk_time, timedelta, usec_per_day,
    usec_per_minute in *. lia.
Qed.

Lemma check_availability_returns d day service_id staff_id duration service :
  get_service d service_id = Some service →
  valid_date day →
  0 <= duration_or duration (Service.duration service) →
  combine day (mk_time 9 0)
  + timedelta (duration_or duration (Service.duration service))
    <= datetime_max →
  ∃ resp, check_availability d day service_id staff_id duration = Ok resp.
Proof.
  intros Hs Hday Hdur Hfirst. unfold check_availability. rewrite Hs.
  destruct (business_day_returns day _ Hday Hdur Hfirst) as [slots ->].
  by eexists.
Qed.



(** The scenario of the specification: with Sam's 10:00 to 11:00 Swedish
    massage, the Swedish slots starting 09:30, 10:00 and 10:30 are gone
    for Sam, and 09:00 and 11:00 remain. *)
Example check_availability_swedish_sam :
  ∃ resp,
    check_availability db_one 0 "swedish" (Some "S1") None = Ok resp
    ∧ take 5 (map (λ s, TimeSlot.start_time s / usec_per_minute)
                (AvailabilityResponse.available_slots resp))
      = [540; 660; 690; 720; 750].
Proof.
  eexists. split; [vm_compute; reflexivity|]. vm_compute. reflexivity.
Qed.

(** ** Availability without a staff member *)

Lemma staff_availability_lookup (F : string → list TimeSlot.t)
    (l : list Staff.t) (k : string) : ∀ acc : gmap string (list TimeSlot.t),
  foldl (λ acc st, <[Staff.id st := F (Staff.id st)]> acc) acc l !! k
  = if bool_decide (k ∈ map Staff.id l) then Some (F k) else acc !! k.
Proof.
  induction l as [|st l IH]; intros acc; simpl; [done|].
  rewrite IH. repeat case_bool_decide; try done.
  - exfalso. set_solver.
  - destruct (decide (Staff.id st = k)) as [<-|Hne].
    + by rewrite lookup_insert_eq.
    + exfalso. set_solver.
  - rewrite lookup_insert_ne; [done|]. set_solver.
Qed.

(** C3, evaluated where the code departs from it.  Only Sam is booked
    10:00 to 11:00.  Sue is active and has that slot free: it is in her
    own list, and a booking without a staff member for 10:00 to 11:00 is
    accepted and given to her.  Yet [available_slots] does not contain
    it. *)
Theorem check_availability_not_union :
  ∃ resp sue_slots,
    check_availability db_one 0 "swedish" None None = Ok resp
    ∧ sue ∈ get_all_staff db_one
    ∧ AvailabilityResponse.staff_availability resp !! Staff.id sue
      = Some sue_slots
    ∧ slot_at 10 0 11 0 ∈ sue_slots
    ∧ (slot_at 10 0 11 0 ∉ AvailabilityResponse.available_slots resp)
    ∧ snd (book_appointment (mkService db_one None) "a9" "c1" "swedish"
             (at_ 10 0) (at_ 11 0) None None)
      = Ok (Appointment.mk "a9" "c1" "S2" "swedish" (at_ 10 0) (at_ 11 0)
              CONFIRMED None None).
Proof.
  eexists _, _. split; [vm_compute; reflexivity|].
  split; [right; left|]. split; [vm_compute; reflexivity|].
  split; [|split].
  - apply (bool_decide_unpack _). vm_compute. exact I.
  - intros H. apply (bool_decide_pack _) in H. vm_compute in H. exact H.
  - vm_compute. reflexivity.
Qed.

(** What the code computes instead.  With no staff member specified,
    whenever [check_availability] returns, [available_slots] holds the
    generated slots that overlap no confirmed or rescheduled appointment
    starting that day for the requested service, whoever the staff member
    is; [staff_availability] maps every active staff member to the
    generated slots that overlap none of that member's such
    appointments. *)
Lemma check_availability_any_staff d day service_id staff_id duration service
    resp :
  get_service d service_id = Some service → truthy staff_id = false →
  check_availability d day service_id staff_id duration = Ok resp →
  ∃ slots,
    _generate_time_slots day (mk_time 9 0) (mk_time 17 0)
      (duration_or duration (Service.duration service)) = Ok slots
    ∧ (∀ slot,
         slot ∈ AvailabilityResponse.available_slots resp
         ↔ slot ∈ slots
           ∧ ∀ a, a ∈ appointments d →
                  date_of (Appointment.start_time a) = day → active a →
                  Appointment.service_id a = service_id →
                  ¬ overlap (TimeSlot.start_time slot) (TimeSlot.end_time slot)
                      (Appointment.start_time a) (Appointment.end_time a))
    ∧ (∀ st, st ∈ get_all_staff d →
         ∃ l,
           AvailabilityResponse.staff_availability resp !! Staff.id st = Some l
           ∧ ∀ slot,
               slot ∈ l
               ↔ slot ∈ slots
                 ∧ ∀ a, a ∈ appointments d →
                        date_of (Appointment.start_time a) = day → active a →
                        Appointment.service_id a = service_id →
                        Appointment.staff_id a = Staff.id st →
                        ¬ overlap (TimeSlot.start_time slot)
                            (TimeSlot.end_time slot)
                            (Appointment.start_time a)
                            (Appointment.end_time a)).
Proof.
  intros Hs Ht
    (service' & slots & Hs' & Hgen & Hav & Hst)%check_availability_inv.
  rewrite Hs in Hs'. injection Hs' as <-. rewrite Ht in Hst. simpl in Hst.
  exists slots. split; [done|]. rewrite Hav, Hst. split.
  - intros slot. rewrite filter_available_slots_spec.
    apply and_iff_compat_l. split.
    + intros H a Ha Hd Hact Hsvc. apply H.
      apply existing_appointments_spec. rewrite Ht. naive_solver.
    + intros H a (Ha & Hd & Hact & Hsvc & _)%existing_appointments_spec.
      by apply H.
  - intros st Hstaff.
    rewrite (staff_availability_lookup
               (λ k, _filter_available_slots _
                       (List.filter
                          (λ apt, String.eqb (Appointment.staff_id apt) k) _))).
    rewrite bool_decide_eq_true_2 by (by apply list_elem_of_fmap_2).
    eexists. split; [reflexivity|]. intros slot.
    rewrite filter_available_slots_spec. apply and_iff_compat_l. split.
    + intros H a Ha Hd Hact Hsvc Hsid. apply H.
      apply elem_of_List_filter. split; [|by apply String.eqb_eq].
      apply existing_appointments_spec. rewrite Ht. naive_solver.
    + intros H a [Hex Hsid%String.eqb_eq]%elem_of_List_filter.
      apply existing_appointments_spec in Hex as (Ha & Hd & Hact & Hsvc & _).
      by apply H.
Qed.

(** ** Preference graph updater *)

Lemma update_appointment_feedback_prefers g aid cid sid s :
  prefers (update_appointment_feedback g aid cid sid s).1 = prefers g.
Proof. unfold update_appointment_feedback. by repeat case_match. Qed.

Lemma update_appointment_feedback_reachable g aid cid sid s :
  reachable g = true →
  (update_appointment_feedback g aid cid sid s).2 = Ok ().
Proof.
  intros H. unfold update_appointment_feedback. rewrite H. simpl.
  by repeat case_match.
Qed.

(** The upsert of [update_customer_preferences] on a reachable graph that
    holds both nodes. *)
Lemma update_customer_preferences_upsert g cid sid s :
  reachable g = true → cid ∈ customer_nodes g →
  is_Some (service_nodes g !! sid) →
  update_customer_preferences g cid sid s
  = (set_prefers
       (<[(cid, sid) :=
            Prefers.mk
              (Some (coalesce (prefers g !! (cid, sid) ≫= Prefers.strength) 0
                     + s)%Q)
              (Some (coalesce (prefers g !! (cid, sid) ≫= Prefers.count) 0 + 1))]>
          (prefers g)) g,
     Ok ()).
Proof.
  intros Hr Hc Hs. unfold update_customer_preferences. rewrite Hr. simpl.
  by rewrite !bool_decide_eq_true_2.
Qed.




(** Two completions in a row: the edge is created with strength s and
    count 1, then grows to s + s' and 2. *)
Example complete_twice :
  let svc1 := (complete_appointment svc_seeded "a1" (3 # 4) None).1 in
  let svc2 := (complete_appointment svc1 "a1" (1 # 2) None).1 in
  (graph_db svc1 ≫= λ g, prefers g !! ("c1", "swedish"))
  = Some (Prefers.mk (Some (0 + (3 # 4))%Q) (Some 1))
  ∧ (graph_db svc2 ≫= λ g, prefers g !! ("c1", "swedish"))
    = Some (Prefers.mk (Some (0 + (3 # 4) + (1 # 2))%Q) (Some 2)).
Proof. split; vm_compute; reflexivity. Qed.

(** ** Recommendations *)

Example service_recommendations_c1 :
  match get_service_recommendations graph_prefs "c1" 5 with
  | Ok rows =>
      map (λ row, (ServiceRecommendation.service_name row,
                   Qred (ServiceRecommendation.score row))) rows
  | Err _ => []
  end
  = [(Some "Anti-Aging Facial", (3 # 2)%Q)].
Proof. vm_compute. reflexivity. Qed.

Example staff_recommendations_swedish :
  match get_staff_recommendations graph_prefs "swedish" "c1" with
  | Ok rows => map StaffRecommendation.staff_id rows
  | Err _ => []
  end
  = ["S1"].
Proof. vm_compute. reflexivity. Qed.

Lemma elem_of_optional_match {A} (l : list A) nulls x :
  x ∈ optional_match l nulls → x ∈ l ∨ x = nulls.
Proof.
  destruct l; simpl; [|by left].
  intros ->%list_elem_of_singleton. by right.
Qed.

Lemma has_prefers_false g c x :
  has_prefers g c x = false → prefers g !! (c, x) = None.
Proof.
  unfold has_prefers. intros H%bool_decide_eq_false.
  by apply eq_None_not_Some.
Qed.

Lemma is_service_true g x :
  is_service g x = true → is_Some (service_nodes g !! x).
Proof. unfold is_service. by intros H%bool_decide_eq_true. Qed.

Lemma match_recommended_not_preferred g c similar r recommended :
  (r, recommended) ∈ match_recommended g c similar →
  not_preferred g c recommended.
Proof.
  unfold match_recommended. intros H sid ->.
  destruct similar as [sim|];
    [|by apply list_elem_of_singleton in H].
  apply elem_of_optional_match in H as [H|H]; [|done].
  apply list_elem_of_bind in H as ([[c2 x] e] & H & _).
  destruct (String.eqb c2 sim && is_service g x && negb (has_prefers g c x))
    eqn:Hcond; [|by apply elem_of_nil in H].
  apply list_elem_of_singleton in H. simplify_eq.
  apply andb_true_iff in Hcond as [[_ Hsv]%andb_true_iff Hnp%negb_true_iff].
  split; [by apply is_service_true|by apply has_prefers_false].
Qed.

Lemma match_complement_not_preferred g c complement :
  complement ∈ match_complement g c → not_preferred g c complement.
Proof.
  unfold match_complement. intros H sid ->.
  apply elem_of_optional_match in H as [H|H]; [|done].
  apply list_elem_of_bind in H as ([[c1 p] e] & H & _).
  destruct (String.eqb c1 c && is_service g p); [|by apply elem_of_nil in H].
  apply list_elem_of_bind in H as ([p' q] & H & _).
  destruct (String.eqb p' p && is_service g q && negb (has_prefers g c q))
    eqn:Hcond; [|by apply elem_of_nil in H].
  apply list_elem_of_singleton in H. simplify_eq.
  apply andb_true_iff in Hcond as [[_ Hsv]%andb_true_iff Hnp%negb_true_iff].
  split; [by apply is_service_true|by apply has_prefers_false].
Qed.

Lemma recommendation_rows_not_preferred g c row :
  row ∈ recommendation_rows g c →
  not_preferred g c (RecRow.recommended row)
  ∧ not_preferred g c (RecRow.complement row).
Proof.
  unfold recommendation_rows. destruct (is_customer g c);
    [|by intros ?%elem_of_nil].
  intros (similar & H & _)%list_elem_of_bind.
  apply list_elem_of_bind in H as ([r x] & H & Hrec).
  apply list_elem_of_bind in H as (y & H & Hcomp).
  apply list_elem_of_singleton in H. subst row. simpl. split.
  - by eapply match_recommended_not_preferred.
  - by eapply match_complement_not_preferred.
Qed.

Lemma elem_of_insert_desc {A} (score : A → Q) x l z :
  z ∈ insert_desc score x l → z = x ∨ z ∈ l.
Proof.
  induction l as [|y l IH]; simpl.
  - intros ->%list_elem_of_singleton. by left.
  - destruct (Qle_bool _ _).
    + intros [->|H]%elem_of_cons; [right; left|].
      destruct (IH H) as [->|?]; [by left|right; by right].
    + intros [->|H]%elem_of_cons; [by left|by right].
Qed.

Lemma elem_of_order_by_desc {A} (score : A → Q) l z :
  z ∈ order_by_desc score l → z ∈ l.
Proof.
  induction l as [|x l IH]; simpl; [done|].
  intros [->|H]%elem_of_insert_desc; [left|right; by apply IH].
Qed.

Lemma service_prop_name g x n :
  service_prop g x ServiceNode.name = Some n →
  ∃ sid node, x = Some sid ∧ service_nodes g !! sid = Some node
              ∧ ServiceNode.name node = Some n.
Proof.
  unfold service_prop. destruct x as [sid|]; simpl; [|done].
  destruct (service_nodes g !! sid) as [node|] eqn:Hnode; simpl; [|done].
  eauto.
Qed.

(** Every row returned by [get_service_recommendations] that carries a
    name took it from a service node the customer does not prefer. *)
Lemma service_recommendations_not_preferred g c limit rows row n :
  get_service_recommendations g c limit = Ok rows → row ∈ rows →
  ServiceRecommendation.service_name row = Some n →
  ∃ sid node,
    service_nodes g !! sid = Some node ∧ ServiceNode.name node = Some n
    ∧ prefers g !! (c, sid) = None.
Proof.
  unfold get_service_recommendations.
  destruct (negb (reachable g)); [done|]. intros [= <-] Hrow Hname.
  apply subseteq_take, elem_of_order_by_desc in Hrow.
  apply list_elem_of_fmap in Hrow as (k & -> & Hk).
  apply elem_of_remove_dups, list_elem_of_fmap in Hk as (r0 & -> & Hr0).
  apply recommendation_rows_not_preferred in Hr0 as [Hrec Hcomp].
  simpl in Hname. unfold coalesce2 in Hname.
  destruct (service_prop g (RecRow.recommended r0) ServiceNode.name)
    as [n1|] eqn:H1.
  - simplify_eq. apply service_prop_name in H1 as (sid & node & Hx & Hn & Hnm).
    destruct (Hrec sid Hx) as [_ Hnone]. eauto.
  - apply service_prop_name in Hname as (sid & node & Hx & Hn & Hnm).
    destruct (Hcomp sid Hx) as [_ Hnone]. eauto.
Qed.

(** Every row returned by [get_staff_recommendations] is a staff node
    with a SPECIALIZES_IN edge to the requested service. *)
Lemma staff_recommendations_specialize g service_id customer_id rows row :
  get_staff_recommendations g service_id customer_id = Ok rows → row ∈ rows →
  is_Some (staff_nodes g !! StaffRecommendation.staff_id row)
  ∧ is_Some (specializes_in g !! (StaffRecommendation.staff_id row, service_id)).
Proof.
  unfold get_staff_recommendations.
  destruct (negb (reachable g)); [done|].
  destruct (is_service g service_id); intros [= <-] Hrow;
    [|by apply elem_of_nil in Hrow].
  apply elem_of_order_by_desc, list_elem_of_bind in Hrow
    as ([[st s] e] & Hrow & Hedge).
  apply elem_of_map_to_list in Hedge.
  destruct (String.eqb_spec s service_id) as [->|]; [|by apply elem_of_nil in Hrow].
  destruct (staff_nodes g !! st) as [node|] eqn:Hnode;
    [|by apply elem_of_nil in Hrow].
  apply list_elem_of_singleton in Hrow. subst row. simpl.
  rewrite Hnode, Hedge. eauto.
Qed.

(** C9.  [get_service_recommendations] never returns a service the
    customer already has a PREFERS edge to: a returned name comes from a
    service node without such an edge.  [get_staff_recommendations]
    returns only staff nodes with a SPECIALIZES_IN edge to the requested
    service.  On the empty graph both return the empty list, not an
    error. *)
Theorem recommendations_spec :
  (∀ g c limit rows row n,
     get_service_recommendations g c limit = Ok rows → row ∈ rows →
     ServiceRecommendation.service_name row = Some n →
     ∃ sid node,
       service_nodes g !! sid = Some node ∧ ServiceNode.name node = Some n
       ∧ prefers g !! (c, sid) = None)
  ∧ (∀ g service_id customer_id rows row,
       get_staff_recommendations g service_id customer_id = Ok rows →
       row ∈ rows →
       is_Some (staff_nodes g !! StaffRecommendation.staff_id row)
       ∧ is_Some (specializes_in g
                    !! (StaffRecommendation.staff_id row, service_id)))
  ∧ (∀ c limit, get_service_recommendations empty_graph c limit = Ok [])
  ∧ (∀ service_id customer_id,
       get_staff_recommendations empty_graph service_id customer_id = Ok []).
Proof.
  split; [apply service_recommendations_not_preferred|].
  split; [apply staff_recommendations_specialize|].
  split.
  - intros c limit. unfold get_service_recommendations, recommendation_rows.
    simpl. unfold is_customer. rewrite bool_decide_eq_false_2 by set_solver.
    by destruct limit.
  - intros service_id customer_id. unfold get_staff_recommendations. simpl.
    unfold is_service.
    rewrite bool_decide_eq_false_2; [done|].
    simpl. rewrite lookup_empty. by intros [? ?].
Qed.

Lemma recommendations_spec_witness :
  ∃ sid node,
    service_nodes graph_prefs !! sid = Some node
    ∧ ServiceNode.name node = Some "Anti-Aging Facial"
    ∧ prefers graph_prefs !! ("c1", sid) = None.
Proof.
  apply (proj1 recommendations_spec graph_prefs "c1" 5%nat
           [ServiceRecommendation.mk (Some "Anti-Aging Facial") None None
              (Some 60) ((1 # 2) + 0 + inject_Z 1)%Q]
           (ServiceRecommendation.mk (Some "Anti-Aging Facial") None None
              (Some 60) ((1 # 2) + 0 + inject_Z 1)%Q)
           "Anti-Aging Facial").
  - vm_compute. reflexivity.
  - left.
  - reflexivity.
Defined.

(** ** The conflict query, beyond the claims *)

(** X1.  For proper intervals, the conflict clause shared by booking and
    rescheduling holds exactly for the overlapping appointments that do
    not lie strictly inside the requested interval: what it reports is a
    real overlap, and the only overlaps it misses are the enclosed ones. *)
Theorem conflict_clause_spec (start_dt end_dt : datetime) (a : Appointment.t) :
  start_dt < end_dt →
  Appointment.start_time a < Appointment.end_time a →
  conflict_clause start_dt end_dt a = true
  ↔ overlap start_dt end_dt (Appointment.start_time a) (Appointment.end_time a)
    ∧ ¬ (start_dt < Appointment.start_time a ∧ Appointment.end_time a < end_dt).
Proof.
  intros Hse Ha. unfold conflict_clause, overlap.
  rewrite orb_true_iff, !andb_true_iff, !Z.leb_le, !Z.ltb_lt. lia.
Qed.

Lemma conflict_clause_spec_witness :
  conflict_clause (at_ 10 30) (at_ 11 30) ten_to_eleven = true
  ↔ overlap (at_ 10 30) (at_ 11 30) (Appointment.start_time ten_to_eleven)
      (Appointment.end_time ten_to_eleven)
    ∧ ¬ (at_ 10 30 < Appointment.start_time ten_to_eleven
         ∧ Appointment.end_time ten_to_eleven < at_ 11 30).
Proof.
  apply (conflict_clause_spec (at_ 10 30) (at_ 11 30) ten_to_eleven);
    vm_compute; reflexivity.
Defined.

Lemma booking_conflicts_elem d staff_id s e a :
  a ∈ booking_conflicts d staff_id s e
  ↔ a ∈ appointments d ∧ Appointment.staff_id a = staff_id ∧ active a
    ∧ conflict_clause s e a = true.
Proof.
  unfold booking_conflicts. rewrite elem_of_List_filter.
  rewrite !andb_true_iff, String.eqb_eq, status_in_active_spec. tauto.
Qed.

Lemma scalar_one_or_none_nonempty {A} (rows : list A) x :
  x ∈ rows →
  (∃ y, scalar_one_or_none rows = Ok (Some y))
  ∨ scalar_one_or_none rows = Err MultipleResultsFound.
Proof.
  destruct rows as [|y [|z rows]]; simpl.
  - by intros ?%elem_of_nil.
  - left. eauto.
  - by right.
Qed.

(** X2.  A booking for a named staff member is refused, and nothing is
    written, whenever the requested start or the requested end falls in
    one of that staff member's confirmed or rescheduled appointments. *)
Theorem book_appointment_rejects_detected_conflict svc new_id customer_id
    service_id start_dt end_dt staff_id notes a :
  staff_id ≠ "" → a ∈ appointments (db svc) →
  Appointment.staff_id a = staff_id → active a →
  conflict_clause start_dt end_dt a = true →
  let r := book_appointment svc new_id customer_id service_id start_dt end_dt
             (Some staff_id) notes in
  r.1 = svc ∧ ∃ e, r.2 = Err e.
Proof.
  intros Hne Ha Hst Hact Hc. cbv zeta. unfold book_appointment.
  assert (truthy (Some staff_id) = true) as Ht.
  { simpl. apply negb_true_iff. by apply String.eqb_neq. }
  destruct (get_customer _ _); [|by simpl; eauto].
  destruct (get_service _ _); [|by simpl; eauto].
  rewrite Ht. simpl negb. cbv iota.
  assert (a ∈ booking_conflicts (db svc) staff_id start_dt end_dt) as Hin
    by by apply booking_conflicts_elem.
  simpl in Ht.
  apply scalar_one_or_none_nonempty in Hin as [[y ->]| ->];
    simpl; rewrite Ht; simpl; eauto.
Qed.

Lemma book_appointment_rejects_detected_conflict_witness :
  (book_appointment (mkService db_one None) "a9" "c1" "swedish"
     (at_ 10 30) (at_ 11 30) (Some "S1") None).1 = mkService db_one None
  ∧ ∃ e, (book_appointment (mkService db_one None) "a9" "c1" "swedish"
            (at_ 10 30) (at_ 11 30) (Some "S1") None).2 = Err e.
Proof.
  apply (book_appointment_rejects_detected_conflict (mkService db_one None)
           "a9" "c1" "swedish" (at_ 10 30) (at_ 11 30) "S1" None ten_to_eleven).
  - discriminate.
  - left.
  - reflexivity.
  - left. reflexivity.
  - vm_compute. reflexivity.
Defined.

(** X3.  When the conflict query returns two or more rows, the booking
    fails with MultipleResultsFound, raised by [scalar_one_or_none], and
    not with the "Time slot is not available" ValueError; nothing is
    written. *)
Theorem book_appointment_multiple_conflicts svc new_id customer_id service_id
    start_dt end_dt staff_id notes customer service c1 c2 rest :
  get_customer (db svc) customer_id = Some customer →
  get_service (db svc) service_id = Some service →
  staff_id ≠ "" →
  booking_conflicts (db svc) staff_id start_dt end_dt = c1 :: c2 :: rest →
  book_appointment svc new_id customer_id service_id start_dt end_dt
    (Some staff_id) notes
  = (svc, Err MultipleResultsFound).
Proof.
  intros Hc Hs Hne Hconf. unfold book_appointment.
  assert (truthy (Some staff_id) = true) as Ht.
  { simpl. apply negb_true_iff. by apply String.eqb_neq. }
  rewrite Hc, Hs, Ht. simpl negb. cbv iota. rewrite Hconf.
  simpl in Ht. simpl. by rewrite Ht.
Qed.

Lemma book_appointment_multiple_conflicts_witness :
  book_appointment (mkService db_back_to_back None) "a9" "c1" "swedish"
    (at_ 10 30) (at_ 11 30) (Some "S1") None
  = (mkService db_back_to_back None, Err MultipleResultsFound).
Proof.
  apply (book_appointment_multiple_conflicts (mkService db_back_to_back None)
           "a9" "c1" "swedish" (at_ 10 30) (at_ 11 30) "S1" None
           alice swedish ten_to_eleven eleven_to_twelve []).
  - reflexivity.
  - reflexivity.
  - discriminate.
  - vm_compute. reflexivity.
Defined.

(** ** Staff assignment *)

Lemma find_available_loop_spec d s e l :
  match find_available_loop d l s e with
  | Ok (Some sid) =>
      ∃ pre st post,
        l = pre ++ st :: post ∧ Staff.id st = sid
        ∧ booking_conflicts d sid s e = []
        ∧ Forall (one_conflict d s e) pre
  | Ok None => Forall (one_conflict d s e) l
  | Err err =>
      err = MultipleResultsFound
      ∧ Exists (λ p, (2 <= length (booking_conflicts d (Staff.id p) s e))%nat) l
  end.
Proof.
  induction l as [|st l IH]; simpl; [by constructor|].
  destruct (booking_conflicts d (Staff.id st) s e) as [|c [|c' rest]] eqn:Hc;
    simpl.
  - exists [], st, l. by repeat split.
  - destruct (find_available_loop d l s e) as [[sid|]|err].
    + destruct IH as (pre & st' & post & -> & Hid & Hnone & Hpre).
      exists (st :: pre), st', post. repeat split; try done.
      constructor; [by exists c|done].
    + constructor; [by exists c|done].
    + destruct IH as [-> Hex]. split; [done|]. by right.
  - split; [done|]. left. rewrite Hc. simpl. lia.
Qed.

(** X4.  [_find_available_staff] scans the active staff in table order
    and returns the first one whose conflict query is empty; every active
    staff member before it has exactly one conflicting appointment.  It
    returns nothing when every active staff member has exactly one, and
    fails with MultipleResultsFound as soon as one has two or more. *)
Theorem find_available_staff_spec d service_id s e :
  match _find_available_staff d service_id s e with
  | Ok (Some sid) =>
      ∃ pre st post,
        get_all_staff d = pre ++ st :: post ∧ Staff.id st = sid
        ∧ booking_conflicts d sid s e = []
        ∧ Forall (one_conflict d s e) pre
  | Ok None => Forall (one_conflict d s e) (get_all_staff d)
  | Err err =>
      err = MultipleResultsFound
      ∧ Exists (λ p, (2 <= length (booking_conflicts d (Staff.id p) s e))%nat)
          (get_all_staff d)
  end.
Proof.
  unfold _find_available_staff, get_all_staff.
  pose proof (find_available_loop_spec d s e
                (List.filter Staff.is_active (staff d))) as H.
  destruct (List.filter Staff.is_active (staff d)) as [|st l] eqn:Hl;
    [by constructor|].
  exact H.
Qed.

(** With Sam booked at 10:00, an unassigned booking for 10:00 goes to
    Sue, the next active staff member; inactive Ann is never chosen. *)
Example find_available_staff_skips_busy_and_inactive :
  _find_available_staff db_three_staff "swedish" (at_ 10 0) (at_ 11 0)
  = Ok (Some "S2").
Proof. vm_compute. reflexivity. Qed.

(** ** What a successful booking guarantees *)

Lemma commit_insert_ok d a d' :
  commit_insert d a = Ok d' →
  d' = set_appointments (appointments d ++ [a]) d
  ∧ get_appointment d (Appointment.id a) = None
  ∧ is_Some (get_staff d (Appointment.staff_id a)).
Proof.
  unfold commit_insert. intros H. repeat case_match; simplify_eq.
  repeat split; eauto.
Qed.

Lemma model_validate_ok a b :
  model_validate a = Ok b →
  b = a ∧ Appointment.start_time a < Appointment.end_time a.
Proof.
  unfold model_validate.
  destruct (Z.leb_spec (Appointment.end_time a) (Appointment.start_time a));
    intros; simplify_eq. split; [done|lia].
Qed.

Lemma book_appointment_ok svc new_id customer_id service_id start_dt
    end_dt staff_id notes svc' a :
  book_appointment svc new_id customer_id service_id start_dt end_dt
    staff_id notes = (svc', Ok a) →
  a = Appointment.mk new_id customer_id (Appointment.staff_id a) service_id
        start_dt end_dt CONFIRMED notes None
  ∧ start_dt < end_dt
  ∧ db svc' = set_appointments (appointments (db svc) ++ [a]) (db svc)
  ∧ get_appointment (db svc) new_id = None
  ∧ is_Some (get_staff (db svc) (Appointment.staff_id a))
  ∧ booking_conflicts (db svc) (Appointment.staff_id a) start_dt end_dt = []
  ∧ (truthy staff_id = true → staff_id = Some (Appointment.staff_id a)).
Proof.
  unfold book_appointment. intros H.
  destruct (get_customer _ _); [|done].
  destruct (get_service _ _); [|done].
  destruct (if negb (truthy staff_id) then _ else _) as [[st|]|err] eqn:Hassigned;
    [|done|done].
  destruct (negb (truthy (Some st))); [done|].
  destruct (booking_conflicts (db svc) st start_dt end_dt) as [|c [|c' rest]]
    eqn:Hconf; simpl in H; [|done|done].
  destruct (commit_insert _ _) as [d'|err] eqn:Hcommit; [|done].
  apply commit_insert_ok in Hcommit as (-> & Hfresh & Hstaff).
  simpl in Hfresh, Hstaff.
  assert (truthy staff_id = true → staff_id = Some st) as Hnamed.
  { intros Ht. rewrite Ht in Hassigned. simpl in Hassigned. by simplify_eq. }
  destruct (graph_db svc) as [g|].
  - destruct (create_appointment_node g _) as [g' [[]|err]]; [|done].
    injection H as <- Hv. apply model_validate_ok in Hv as [-> Hlt].
    simpl in *. by repeat split.
  - injection H as <- Hv. apply model_validate_ok in Hv as [-> Hlt].
    simpl in *. by repeat split.
Qed.

(** X5.  A booking that returns an appointment has appended exactly that
    row, confirmed and with the requested customer, service, interval and
    notes, and changed nothing else in the relational store.  Its
    interval is proper, its id was unused, its staff member exists and had
    no row matching the conflict query, and a named staff member is the
    one assigned. *)
Theorem book_appointment_success svc new_id customer_id service_id start_dt
    end_dt staff_id notes svc' a :
  book_appointment svc new_id customer_id service_id start_dt end_dt
    staff_id notes = (svc', Ok a) →
  a = Appointment.mk new_id customer_id (Appointment.staff_id a) service_id
        start_dt end_dt CONFIRMED notes None
  ∧ start_dt < end_dt
  ∧ db svc' = set_appointments (appointments (db svc) ++ [a]) (db svc)
  ∧ get_appointment (db svc) new_id = None
  ∧ is_Some (get_staff (db svc) (Appointment.staff_id a))
  ∧ booking_conflicts (db svc) (Appointment.staff_id a) start_dt end_dt = []
  ∧ (truthy staff_id = true → staff_id = Some (Appointment.staff_id a)).
Proof. apply book_appointment_ok. Qed.

Lemma book_appointment_success_witness :
  at_ 9 0 < at_ 10 0 ∧ get_appointment db_none "a9" = None.
Proof.
  destruct (book_appointment_success (mkService db_none None) "a9" "c1"
              "swedish" (at_ 9 0) (at_ 10 0) (Some "S1") None
              (mkService
                 (set_appointments
                    [Appointment.mk "a9" "c1" "S1" "swedish" (at_ 9 0)
                       (at_ 10 0) CONFIRMED None None] db_none) None)
              (Appointment.mk "a9" "c1" "S1" "swedish" (at_ 9 0) (at_ 10 0)
                 CONFIRMED None None))
    as (_ & Hlt & _ & Hfresh & _).
  - vm_compute. reflexivity.
  - split; assumption.
Defined.

(** ** Booking and cancelling *)

Lemma find_none_not_in k l :
  List.find (λ a, String.eqb (Appointment.id a) k) l = None →
  k ∉ map Appointment.id l.
Proof.
  induction l as [|a l IH]; simpl; [by intros _ ?%elem_of_nil|].
  destruct (String.eqb_spec (Appointment.id a) k) as [|Hne]; [done|].
  intros H [->|Hin]%elem_of_cons; [done|]. by apply IH.
Qed.

Lemma map_update_absent k (f : Appointment.t → Appointment.t) l :
  k ∉ map Appointment.id l →
  map (λ a, if String.eqb (Appointment.id a) k then f a else a) l = l.
Proof.
  induction l as [|a l IH]; simpl; [done|]. intros Hk.
  destruct (String.eqb_spec (Appointment.id a) k) as [<-|Hne].
  - exfalso. apply Hk. left.
  - f_equal. apply IH. intros Hin. apply Hk. by right.
Qed.

Lemma find_app_none {A} (p : A → bool) l l' :
  List.find p l = None → List.find p (l ++ l') = List.find p l'.
Proof.
  induction l as [|x l IH]; simpl; [done|]. by destruct (p x).
Qed.

Lemma check_availability_ext d1 d2 day service_id staff_id duration :
  services d1 = services d2 → staff d1 = staff d2 →
  existing_appointments d1 day service_id staff_id
  = existing_appointments d2 day service_id staff_id →
  check_availability d1 day service_id staff_id duration
  = check_availability d2 day service_id staff_id duration.
Proof.
  intros Hs Hst He. unfold check_availability, get_service, get_all_staff.
  by rewrite Hs, Hst, He.
Qed.

(** X6.  Booking an appointment and then cancelling it by its id brings
    [check_availability] back to what it answered before the booking, for
    every date, service, staff member and duration asked about. *)
Theorem book_then_cancel_restores_availability svc new_id customer_id
    service_id start_dt end_dt staff_id notes svc1 a reason
    day q_service q_staff q_duration :
  book_appointment svc new_id customer_id service_id start_dt end_dt
    staff_id notes = (svc1, Ok a) →
  let r := cancel_appointment svc1 new_id reason in
  r.2 = Ok true
  ∧ check_availability (db r.1) day q_service q_staff q_duration
    = check_availability (db svc) day q_service q_staff q_duration.
Proof.
  intros Hbook. cbv zeta.
  apply book_appointment_ok in Hbook as (Ha & _ & Hdb & Hfresh & _).
  assert (Appointment.id a = new_id) as Hid by (by rewrite Ha).
  assert (get_appointment (db svc1) new_id = Some a) as Hget.
  { rewrite Hdb. unfold get_appointment. simpl.
    rewrite find_app_none by exact Hfresh. simpl.
    by rewrite Hid, String.eqb_refl. }
  unfold cancel_appointment. rewrite Hget. simpl. split; [done|].
  apply check_availability_ext; rewrite Hdb; simpl; try done.
  unfold existing_appointments. simpl. rewrite map_app. simpl.
  rewrite Hid, String.eqb_refl.
  rewrite map_update_absent by by apply find_none_not_in.
  rewrite List.filter_app. simpl.
  rewrite Ha at 2. simpl. rewrite !andb_false_r. simpl.
  by rewrite app_nil_r.
Qed.

Lemma book_then_cancel_restores_availability_witness :
  check_availability
    (db (cancel_appointment
           (book_appointment (mkService db_one None) "a9" "c1" "swedish"
              (at_ 13 0) (at_ 14 0) (Some "S1") None).1 "a9" None).1)
    0 "swedish" (Some "S1") None
  = check_availability db_one 0 "swedish" (Some "S1") None.
Proof.
  apply (book_then_cancel_restores_availability (mkService db_one None) "a9"
           "c1" "swedish" (at_ 13 0) (at_ 14 0) (Some "S1") None _
           (Appointment.mk "a9" "c1" "S1" "swedish" (at_ 13 0) (at_ 14 0)
              CONFIRMED None None)).
  vm_compute. reflexivity.
Defined.

(** ** Store invariants *)

Lemma book_appointment_db svc new_id customer_id service_id start_dt end_dt
    staff_id notes :
  let r := book_appointment svc new_id customer_id service_id start_dt end_dt
             staff_id notes in
  db r.1 = db svc
  ∨ ∃ a, Appointment.id a = new_id
         ∧ get_appointment (db svc) new_id = None
         ∧ db r.1 = set_appointments (appointments (db svc) ++ [a]) (db svc).
Proof.
  cbv zeta. unfold book_appointment.
  destruct (get_customer _ _); [|by left].
  destruct (get_service _ _); [|by left].
  destruct (if negb (truthy staff_id) then _ else _) as [[st|]|err];
    [|by left|by left].
  destruct (negb (truthy (Some st))); [by left|].
  destruct (scalar_one_or_none _) as [[c|]|err]; [by left| |by left].
  destruct (commit_insert _ _) as [d'|err] eqn:Hcommit; [|by left].
  apply commit_insert_ok in Hcommit as (-> & Hfresh & _). simpl in Hfresh.
  right.
  exists (Appointment.mk new_id customer_id st service_id start_dt end_dt
            CONFIRMED notes None).
  split; [done|]. split; [exact Hfresh|].
  destruct (graph_db svc) as [g|]; [|done].
  by destruct (create_appointment_node g _) as [g' [[]|err]].
Qed.

Lemma update_appointment_ids k f d :
  (∀ a, Appointment.id (f a) = Appointment.id a) →
  map Appointment.id (appointments (update_appointment k f d))
  = map Appointment.id (appointments d).
Proof.
  intros Hf. simpl. rewrite map_map. apply map_ext. intros a.
  by destruct (String.eqb _ _).
Qed.

(** X7.  Distinct primary keys stay distinct: whatever their outcome,
    [book_appointment], [cancel_appointment], [reschedule_appointment]
    and [complete_appointment] leave the appointments table without
    duplicate ids. *)
Theorem unique_ids_preserved svc :
  unique_ids (db svc) →
  (∀ new_id customer_id service_id start_dt end_dt staff_id notes,
     unique_ids (db (book_appointment svc new_id customer_id service_id
                       start_dt end_dt staff_id notes).1))
  ∧ (∀ k reason, unique_ids (db (cancel_appointment svc k reason).1))
  ∧ (∀ k new_start, unique_ids (db (reschedule_appointment svc k new_start).1))
  ∧ (∀ k satisfaction feedback,
       unique_ids (db (complete_appointment svc k satisfaction feedback).1)).
Proof.
  intros Hu. unfold unique_ids in *. repeat split.
  - intros new_id customer_id service_id start_dt end_dt staff_id notes.
    destruct (book_appointment_db svc new_id customer_id service_id start_dt
                end_dt staff_id notes) as [->|(a & Hid & Hfresh & ->)];
      [done|].
    simpl. rewrite map_app. simpl. apply NoDup_app. split; [done|].
    split; [|apply NoDup_singleton].
    intros x Hx ->%list_elem_of_singleton.
    apply find_none_not_in in Hfresh. by rewrite Hid in Hx.
  - intros k reason. unfold cancel_appointment.
    destruct (get_appointment _ _); [|done]. simpl fst. simpl db.
    by rewrite update_appointment_ids.
  - intros k new_start. unfold reschedule_appointment.
    repeat case_match; try done. simpl fst. simpl db.
    by rewrite update_appointment_ids.
  - intros k satisfaction feedback. unfold complete_appointment.
    destruct (get_appointment _ _); [|done].
    assert (∀ f, (∀ a, Appointment.id (f a) = Appointment.id a) →
              NoDup (map Appointment.id
                       (appointments (update_appointment k f (db svc)))))
      as Hupd by (by intros f Hf; rewrite update_appointment_ids).
    repeat case_match; simpl fst; simpl db; apply Hupd;
      intros row; simpl; by destruct (truthy feedback).
Qed.

Lemma unique_ids_preserved_witness :
  unique_ids (db (cancel_appointment (mkService db_two None) "a1" None).1).
Proof.
  apply (unique_ids_preserved (mkService db_two None)).
  unfold unique_ids. simpl. apply NoDup_cons. split.
  - intros H%list_elem_of_singleton. discriminate.
  - apply NoDup_singleton.
Defined.

(** X8.  [cancel_appointment] on an unknown id fails with "Appointment
    not found" and changes nothing.  On a known id it returns true, never
    touches the graph store, keeps every row in place, leaves the rows
    with another id as they are, and in the cancelled row changes only
    the status and the cancellation reason. *)
Theorem cancel_appointment_spec svc k reason :
  let r := cancel_appointment svc k reason in
  match get_appointment (db svc) k with
  | None => r = (svc, Err (ValueError "Appointment not found"))
  | Some _ =>
      r.2 = Ok true
      ∧ graph_db r.1 = graph_db svc
      ∧ customers (db r.1) = customers (db svc)
      ∧ staff (db r.1) = staff (db svc)
      ∧ services (db r.1) = services (db svc)
      ∧ length (appointments (db r.1)) = length (appointments (db svc))
      ∧ ∀ (i : nat) a, appointments (db svc) !! i = Some a →
          ∃ a', appointments (db r.1) !! i = Some a'
                ∧ (Appointment.id a ≠ k → a' = a)
                ∧ (Appointment.id a = k →
                   a' = Appointment.mk (Appointment.id a)
                          (Appointment.customer_id a) (Appointment.staff_id a)
                          (Appointment.service_id a) (Appointment.start_time a)
                          (Appointment.end_time a) CANCELLED
                          (Appointment.notes a) reason)
  end.
Proof.
  cbv zeta. unfold cancel_appointment.
  destruct (get_appointment (db svc) k); [|done]. simpl.
  repeat split; try done.
  - by rewrite length_map.
  - intros i a Hi. eexists. split.
    + change (map ?f ?l) with (f <$> l). rewrite list_lookup_fmap, Hi.
      reflexivity.
    + destruct (String.eqb_spec (Appointment.id a) k); split; done.
Qed.

Lemma cancel_appointment_spec_witness :
  ∃ a',
    appointments (db (cancel_appointment svc_seeded "a1" (Some "ill")).1)
      !! 0%nat = Some a'
    ∧ Appointment.status a' = CANCELLED
    ∧ Appointment.cancellation_reason a' = Some "ill".
Proof.
  pose proof (cancel_appointment_spec svc_seeded "a1" (Some "ill")) as H.
  cbv zeta in H.
  assert (get_appointment (db svc_seeded) "a1" = Some ten_to_eleven) as Hg
    by reflexivity.
  rewrite Hg in H. destruct H as (_ & _ & _ & _ & _ & _ & Hrows).
  destruct (Hrows 0%nat ten_to_eleven eq_refl) as (a' & Hl & _ & Heq).
  exists a'. split; [exact Hl|]. rewrite (Heq eq_refl). split; reflexivity.
Defined.

(** ** Graph writes, beyond the claims *)

(** X9.  [update_appointment_feedback], on a reachable graph that holds
    the appointment, customer and staff nodes, sets the WORKED_WITH
    satisfaction to (old + s) / 2 and raises its count by one, a missing
    edge or property counting as 0; it records s on the appointment node
    and leaves every PREFERS edge and every other WORKED_WITH edge alone.
    With old and s in [0, 1] the new satisfaction is in [0, 1] too. *)
Theorem update_appointment_feedback_spec g appointment_id customer_id staff_id
    s node :
  reachable g = true →
  appointment_nodes g !! appointment_id = Some node →
  customer_id ∈ customer_nodes g →
  is_Some (staff_nodes g !! staff_id) →
  let old := worked_with g !! (customer_id, staff_id) in
  let old_s := coalesce (old ≫= WorkedWith.satisfaction) 0%Q in
  let r := update_appointment_feedback g appointment_id customer_id staff_id s in
  r.2 = Ok ()
  ∧ worked_with r.1 !! (customer_id, staff_id)
    = Some (WorkedWith.mk (Some ((old_s + s) / 2)%Q)
              (Some (coalesce (old ≫= WorkedWith.count) 0 + 1)))
  ∧ (∀ k, k ≠ (customer_id, staff_id) →
          worked_with r.1 !! k = worked_with g !! k)
  ∧ prefers r.1 = prefers g
  ∧ (appointment_nodes r.1 !! appointment_id
       ≫= AppointmentNode.satisfaction) = Some s
  ∧ ((0 <= old_s <= 1)%Q → (0 <= s <= 1)%Q →
     (0 <= (old_s + s) / 2 <= 1)%Q).
Proof.
  intros Hr Hnode Hc Hst. cbv zeta. unfold update_appointment_feedback.
  rewrite Hr, Hnode. simpl negb. cbv iota.
  rewrite !bool_decide_eq_true_2 by done. simpl.
  rewrite !lookup_insert_eq. simpl.
  split; [done|]. split; [done|].
  split; [by intros k Hk; rewrite lookup_insert_ne|].
  split; [done|]. split; [done|].
  generalize (coalesce (worked_with g !! (customer_id, staff_id)
                          ≫= WorkedWith.satisfaction) 0%Q).
  intros q [Hq0 Hq1] [Hs0 Hs1]. split.
  - apply Qle_shift_div_l; lra.
  - apply Qle_shift_div_r; lra.
Qed.

Lemma update_appointment_feedback_spec_witness :
  worked_with (update_appointment_feedback graph_booked "a1" "c1" "S1" 1%Q).1
    !! ("c1", "S1")
  = Some (WorkedWith.mk (Some ((0 + 1) / 2)%Q) (Some (0 + 1))).
Proof.
  apply (update_appointment_feedback_spec graph_booked "a1" "c1" "S1" 1%Q
           (AppointmentNode.mk "c1" "S1" "swedish" (at_ 10 0) (at_ 11 0)
              CONFIRMED None)).
  - reflexivity.
  - vm_compute. reflexivity.
  - apply (bool_decide_unpack _). vm_compute. exact I.
  - apply (bool_decide_unpack _). vm_compute. exact I.
Defined.

Lemma update_customer_preferences_skip g c s q :
  reachable g = true →
  ¬ (c ∈ customer_nodes g ∧ is_Some (service_nodes g !! s)) →
  update_customer_preferences g c s q = (g, Ok ()).
Proof.
  intros Hr Hmiss. unfold update_customer_preferences. rewrite Hr. simpl.
  repeat case_bool_decide; simpl; try done. tauto.
Qed.

Lemma update_appointment_feedback_skip g aid c st q :
  reachable g = true →
  ¬ (is_Some (appointment_nodes g !! aid) ∧ c ∈ customer_nodes g
     ∧ is_Some (staff_nodes g !! st)) →
  update_appointment_feedback g aid c st q = (g, Ok ()).
Proof.
  intros Hr Hmiss. unfold update_appointment_feedback. rewrite Hr. simpl.
  destruct (appointment_nodes g !! aid) eqn:Hnode; [|done].
  repeat case_bool_decide; simpl; try done.
  exfalso. apply Hmiss. eauto.
Qed.

Lemma create_appointment_node_skip g a :
  reachable g = true →
  ¬ (Appointment.customer_id a ∈ customer_nodes g
     ∧ is_Some (staff_nodes g !! Appointment.staff_id a)
     ∧ is_Some (service_nodes g !! Appointment.service_id a)) →
  create_appointment_node g a = (g, Ok ()).
Proof.
  intros Hr Hmiss. unfold create_appointment_node. rewrite Hr. simpl.
  repeat case_bool_decide; simpl; try done. tauto.
Qed.

(** X10.  On a reachable graph the three writes silently do nothing when
    a node they match on is missing: each returns without error and
    leaves the graph exactly as it was. *)
Theorem graph_writes_skip_missing_nodes g :
  reachable g = true →
  (∀ c s q,
     ¬ (c ∈ customer_nodes g ∧ is_Some (service_nodes g !! s)) →
     update_customer_preferences g c s q = (g, Ok ()))
  ∧ (∀ aid c st q,
       ¬ (is_Some (appointment_nodes g !! aid) ∧ c ∈ customer_nodes g
          ∧ is_Some (staff_nodes g !! st)) →
       update_appointment_feedback g aid c st q = (g, Ok ()))
  ∧ (∀ a,
       ¬ (Appointment.customer_id a ∈ customer_nodes g
          ∧ is_Some (staff_nodes g !! Appointment.staff_id a)
          ∧ is_Some (service_nodes g !! Appointment.service_id a)) →
       create_appointment_node g a = (g, Ok ())).
Proof.
  intros Hr. split; [|split].
  - intros c s q. by apply update_customer_preferences_skip.
  - intros aid c st q. by apply update_appointment_feedback_skip.
  - intros a. by apply create_appointment_node_skip.
Qed.

Lemma graph_writes_skip_missing_nodes_witness :
  update_customer_preferences graph_seeded "nobody" "swedish" 1%Q
  = (graph_seeded, Ok ()).
Proof.
  apply (graph_writes_skip_missing_nodes graph_seeded); [reflexivity|].
  intros [H _]. apply (bool_decide_pack _) in H. vm_compute in H. exact H.
Defined.

(** X11.  Completing an appointment whose customer has no node in a
    reachable graph still succeeds and marks it completed, but records
    nothing: the graph store is left exactly as it was. *)
Theorem complete_appointment_unknown_customer svc g k appointment s feedback :
  graph_db svc = Some g → reachable g = true →
  get_appointment (db svc) k = Some appointment →
  Appointment.customer_id appointment ∉ customer_nodes g →
  let r := complete_appointment svc k s feedback in
  r.2 = Ok true ∧ graph_db r.1 = Some g
  ∧ status_of (db r.1) k = Some COMPLETED.
Proof.
  intros Hg Hr Ha Hc. cbv zeta.
  pose proof (lifecycle_status_completed svc k appointment s feedback Ha) as Hst.
  unfold complete_appointment in *. rewrite Ha, Hg in *.
  rewrite update_customer_preferences_skip in * by tauto.
  rewrite update_appointment_feedback_skip in * by tauto. done.
Qed.

Lemma complete_appointment_unknown_customer_witness :
  (complete_appointment (mkService db_one (Some graph_no_customer)) "a1"
     1%Q None).2 = Ok true
  ∧ graph_db (complete_appointment (mkService db_one (Some graph_no_customer))
                "a1" 1%Q None).1 = Some graph_no_customer
  ∧ status_of (db (complete_appointment
                     (mkService db_one (Some graph_no_customer)) "a1" 1%Q
                     None).1) "a1" = Some COMPLETED.
Proof.
  apply (complete_appointment_unknown_customer
           (mkService db_one (Some graph_no_customer)) graph_no_customer "a1"
           ten_to_eleven 1%Q None).
  - reflexivity.
  - reflexivity.
  - reflexivity.
  - intros H. apply (bool_decide_pack _) in H. vm_compute in H. exact H.
Defined.

(** X12.  [create_appointment_node] is not an upsert.  With the customer,
    staff and service nodes present and the id unused, the first call
    creates the appointment node with the booking's data; a second call
    for the same id fails on the uniqueness constraint and changes
    nothing. *)
Theorem create_appointment_node_twice g a :
  reachable g = true →
  Appointment.customer_id a ∈ customer_nodes g →
  is_Some (staff_nodes g !! Appointment.staff_id a) →
  is_Some (service_nodes g !! Appointment.service_id a) →
  appointment_nodes g !! Appointment.id a = None →
  let r := create_appointment_node g a in
  r.2 = Ok ()
  ∧ appointment_nodes r.1 !! Appointment.id a
    = Some (AppointmentNode.mk (Appointment.customer_id a)
              (Appointment.staff_id a) (Appointment.service_id a)
              (Appointment.start_time a) (Appointment.end_time a)
              (Appointment.status a) None)
  ∧ (∀ k, k ≠ Appointment.id a →
          appointment_nodes r.1 !! k = appointment_nodes g !! k)
  ∧ create_appointment_node r.1 a = (r.1, Err GraphStoreError).
Proof.
  intros Hr Hc Hst Hsv Hfresh. cbv zeta. unfold create_appointment_node.
  rewrite Hr. simpl negb. cbv iota.
  rewrite !bool_decide_eq_true_2 by done. simpl. rewrite Hfresh. simpl.
  rewrite Hr. simpl. rewrite !bool_decide_eq_true_2 by done. simpl.
  rewrite lookup_insert_eq.
  split; [done|]. split; [done|]. split; [|done].
  intros k Hk. by rewrite lookup_insert_ne.
Qed.

Lemma create_appointment_node_twice_witness :
  create_appointment_node graph_booked ten_to_eleven
  = (graph_booked, Err GraphStoreError).
Proof.
  apply (create_appointment_node_twice graph_seeded ten_to_eleven).
  - reflexivity.
  - apply (bool_decide_unpack _). vm_compute. exact I.
  - apply (bool_decide_unpack _). vm_compute. exact I.
  - apply (bool_decide_unpack _). vm_compute. exact I.
  - vm_compute. reflexivity.
Defined.

(** ** Ranking *)

Lemma insert_desc_perm {A} (score : A → Q) x l :
  insert_desc score x l ≡ₚ x :: l.
Proof.
  induction l as [|y l IH]; simpl; [done|].
  destruct (Qle_bool _ _); [|done].
  rewrite IH. apply Permutation_swap.
Qed.

Lemma order_by_desc_perm {A} (score : A → Q) l :
  order_by_desc score l ≡ₚ l.
Proof.
  induction l as [|x l IH]; simpl; [done|].
  by rewrite insert_desc_perm, IH.
Qed.

Lemma insert_desc_descending {A} (score : A → Q) x l :
  descending score l → descending score (insert_desc score x l).
Proof.
  unfold descending. induction 1 as [|y l Hl IH Hy]; simpl.
  - repeat constructor.
  - destruct (Qle_bool (score x) (score y)) eqn:Hle.
    + apply Qle_bool_iff in Hle. constructor; [done|].
      apply Forall_forall. intros z Hz.
      rewrite insert_desc_perm in Hz.
      apply elem_of_cons in Hz as [->|Hz]; [done|].
      rewrite Forall_forall in Hy. by apply Hy.
    + assert (score y <= score x)%Q as Hyx.
      { apply Qlt_le_weak, Qnot_le_lt. intros Hc.
        apply Qle_bool_iff in Hc. congruence. }
      constructor; [by constructor|].
      constructor; [done|].
      eapply Forall_impl; [exact Hy|]. intros z Hz. simpl in Hz.
      by eapply Qle_trans.
Qed.

Lemma order_by_desc_descending {A} (score : A → Q) l :
  descending score (order_by_desc score l).
Proof.
  induction l as [|x l IH]; simpl; [constructor|].
  by apply insert_desc_descending.
Qed.

Lemma take_descending {A} (score : A → Q) n l :
  descending score l → descending score (take n l).
Proof.
  unfold descending. intros H. revert n.
  induction H as [|x l Hl IH Hx]; intros [|n]; simpl; try constructor.
  - apply IH.
  - apply Forall_forall. intros z Hz.
    rewrite Forall_forall in Hx. apply Hx.
    by eapply subseteq_take.
Qed.

(** X13.  Both recommendation queries return their rows ranked: service
    recommendations are at most [limit] rows in descending order of
    score, staff recommendations are in descending order of total score,
    and each staff row's total is its previous satisfaction plus its
    expertise level. *)
Theorem recommendations_ranked :
  (∀ g c limit rows,
     get_service_recommendations g c limit = Ok rows →
     (length rows <= limit)%nat
     ∧ descending ServiceRecommendation.score rows)
  ∧ (∀ g service_id customer_id rows,
       get_staff_recommendations g service_id customer_id = Ok rows →
       descending StaffRecommendation.total_score rows
       ∧ Forall (λ row,
                   StaffRecommendation.total_score row
                   = (StaffRecommendation.previous_satisfaction row
                      + StaffRecommendation.expertise_level row)%Q)
                rows).
Proof.
  split.
  - intros g c limit rows. unfold get_service_recommendations.
    destruct (negb (reachable g)); [done|]. intros [= <-]. split.
    + rewrite length_take. lia.
    + apply take_descending, order_by_desc_descending.
  - intros g service_id customer_id rows. unfold get_staff_recommendations.
    destruct (negb (reachable g)); [done|].
    destruct (is_service g service_id); intros [= <-];
      [|split; constructor].
    split; [apply order_by_desc_descending|].
    rewrite order_by_desc_perm. apply Forall_forall.
    intros row Hrow.
    apply list_elem_of_bind in Hrow as ([[st s] e] & Hrow & _).
    destruct (String.eqb s service_id); [|by apply elem_of_nil in Hrow].
    destruct (staff_nodes g !! st); [|by apply elem_of_nil in Hrow].
    apply list_elem_of_singleton in Hrow. by subst row.
Qed.

Lemma recommendations_ranked_witness :
  (length [ServiceRecommendation.mk (Some "Anti-Aging Facial") None None
             (Some 60%Z) ((1 # 2) + 0 + inject_Z 1%Z)%Q] <= 5)%nat.
Proof.
  apply (proj1 recommendations_ranked graph_prefs "c1" 5%nat).
  vm_compute. reflexivity.
Defined.

Lemma bind_nil_all {A B} (f : A → list B) (l : list A) :
  (∀ x, x ∈ l → f x = []) → l ≫= f = [].
Proof.
  induction l as [|x l IH]; intros H; [done|].
  change ((x :: l) ≫= f) with (f x ++ (l ≫= f)).
  rewrite H by left. rewrite IH; [done|]. intros y Hy. apply H. by right.
Qed.

(** X14.  For a customer without a node in the graph the service query
    returns no row.  For a customer node without any PREFERS edge it
    returns, for a positive limit, exactly one row, and that row names no
    service: every property is null and the score is 0. *)
Theorem service_recommendations_without_preferences g c limit :
  reachable g = true →
  (c ∉ customer_nodes g → get_service_recommendations g c limit = Ok [])
  ∧ (c ∈ customer_nodes g → (∀ s, prefers g !! (c, s) = None) →
     get_service_recommendations g c (S limit)
     = Ok [ServiceRecommendation.mk None None None None
             (0 + 0 + inject_Z 0)%Q]).
Proof.
  intros Hr. unfold get_service_recommendations, recommendation_rows.
  rewrite Hr. simpl negb. cbv iota. unfold is_customer. split.
  - intros Hc. rewrite bool_decide_eq_false_2 by done. simpl.
    by destruct limit.
  - intros Hc Hnone. rewrite bool_decide_eq_true_2 by done.
    assert (match_similar g c = [None]) as ->.
    { unfold match_similar. rewrite bind_nil_all; [done|].
      intros [[c1 s] p] Hin%elem_of_map_to_list.
      destruct (String.eqb_spec c1 c) as [->|]; [|done].
      by rewrite Hnone in Hin. }
    assert (match_complement g c = [None]) as ->.
    { unfold match_complement. rewrite bind_nil_all; [done|].
      intros [[c1 s] p] Hin%elem_of_map_to_list.
      destruct (String.eqb_spec c1 c) as [->|]; [|done].
      by rewrite Hnone in Hin. }
    destruct limit; vm_compute; reflexivity.
Qed.

Lemma service_recommendations_without_preferences_witness :
  get_service_recommendations graph_seeded "c1" 5
  = Ok [ServiceRecommendation.mk None None None None (0 + 0 + inject_Z 0)%Q].
Proof.
  apply (service_recommendations_without_preferences graph_seeded "c1" 4%nat).
  - reflexivity.
  - apply (bool_decide_unpack _). vm_compute. exact I.
  - intros s. apply lookup_empty.
Defined.

(** ** Availability, beyond the claims *)




Lemma filter_available_slots_sublist slots appts :
  _filter_available_slots slots appts `sublist_of` slots.
Proof.
  induction slots as [|s slots IH]; simpl; [done|].
  destruct (is_available s appts); by constructor.
Qed.

(** X16.  [_filter_available_slots] only removes slots: its result is the
    input with some slots dropped, in the same order.  With no
    appointments nothing is dropped, and adding appointments never brings
    a slot back. *)
Theorem filter_available_slots_monotone slots appts :
  _filter_available_slots slots appts `sublist_of` slots
  ∧ _filter_available_slots slots [] = slots
  ∧ ∀ appts' slot,
      appts ⊆ appts' →
      slot ∈ _filter_available_slots slots appts' →
      slot ∈ _filter_available_slots slots appts.
Proof.
  split; [apply filter_available_slots_sublist|]. split.
  - induction slots as [|s slots IH]; simpl; [done|]. by rewrite IH.
  - intros appts' slot Hsub.
    rewrite !filter_available_slots_spec. intros [Hin Hfree].
    split; [done|]. intros a Ha. apply Hfree. by apply Hsub.
Qed.

Lemma filter_available_slots_monotone_witness :
  slot_at 11 0 12 0 ∈ _filter_available_slots [slot_at 11 0 12 0] [].
Proof.
  destruct (filter_available_slots_monotone [slot_at 11 0 12 0] [])
    as (_ & _ & H).
  apply (H [ten_to_eleven]).
  - intros x Hx. by apply elem_of_nil in Hx.
  - apply (bool_decide_unpack _). vm_compute. exact I.
Defined.

Lemma check_availability_slot_bounds d day service_id staff_id duration
    service resp slot :
  get_service d service_id = Some service →
  check_availability d day service_id staff_id duration = Ok resp →
  (slot ∈ AvailabilityResponse.available_slots resp
   ∨ ∃ k l, AvailabilityResponse.staff_availability resp !! k = Some l
            ∧ slot ∈ l) →
  combine day (mk_time 9 0) <= TimeSlot.start_time slot
  ∧ TimeSlot.end_time slot
    = TimeSlot.start_time slot
      + timedelta (duration_or duration (Service.duration service))
  ∧ TimeSlot.end_time slot <= combine day (mk_time 17 0).
Proof.
  intros Hs (service' & slots & Hs' & Hgen & Hav & Hst)%check_availability_inv
    Hslot.
  rewrite Hs in Hs'. injection Hs' as <-.
  set (dur := duration_or duration (Service.duration service)) in *.
  assert (slot ∈ slots) as Hin.
  { destruct Hslot as [Hin|(k & l & Hl & Hin)].
    - rewrite Hav in Hin.
      by eapply elem_of_sublist; [|apply filter_available_slots_sublist].
    - rewrite Hst in Hl.
      destruct (negb (truthy staff_id)); [|by rewrite lookup_empty in Hl].
      rewrite (staff_availability_lookup
                 (λ k, _filter_available_slots _
                         (List.filter
                            (λ apt, String.eqb (Appointment.staff_id apt) k) _)))
        in Hl.
      case_bool_decide; [|by rewrite lookup_empty in Hl].
      simplify_eq.
      by eapply elem_of_sublist; [|apply filter_available_slots_sublist]. }
  apply generate_time_slots_ok in Hgen as ->.
  apply list_elem_of_lookup in Hin as [i Hi].
  apply slot_list_lookup in Hi as (Hstart & He & Hb); [|done].
  pose proof timedelta_30_pos. repeat split; try done. lia.
Qed.

(** X17.  An unknown service is an error.  Otherwise, whenever
    [check_availability] returns, every slot it offers, in
    [available_slots] or in any staff member's list, starts at or after
    09:00, lasts the effective duration (the requested one, or the
    service's when none or 0 is given) and ends by 17:00 that day; and it
    returns for every valid date and every effective duration d >= 0 for
    which 09:00 + d is still on the calendar. *)
Theorem check_availability_within_business_hours d day service_id staff_id
    duration :
  match get_service d service_id with
  | None =>
      check_availability d day service_id staff_id duration
      = Err (ValueError "Service not found")
  | Some service =>
      (∀ resp slot,
         check_availability d day service_id staff_id duration = Ok resp →
         (slot ∈ AvailabilityResponse.available_slots resp
          ∨ ∃ k l, AvailabilityResponse.staff_availability resp !! k = Some l
                   ∧ slot ∈ l) →
         combine day (mk_time 9 0) <= TimeSlot.start_time slot
         ∧ TimeSlot.end_time slot
           = TimeSlot.start_time slot
             + timedelta (duration_or duration (Service.duration service))
         ∧ TimeSlot.end_time slot <= combine day (mk_time 17 0))
      ∧ (valid_date day →
         0 <= duration_or duration (Service.duration service) →
         combine day (mk_time 9 0)
         + timedelta (duration_or duration (Service.duration service))
           <= datetime_max →
         ∃ resp,
           check_availability d day service_id staff_id duration = Ok resp)
  end.
Proof.
  destruct (get_service d service_id) as [service|] eqn:Hs.
  - split; [|by apply check_availability_returns].
    intros resp slot. by apply check_availability_slot_bounds.
  - unfold check_availability. by rewrite Hs.
Qed.

Lemma check_availability_within_business_hours_witness :
  ∃ resp,
    check_availability db_one 0 "swedish" None None = Ok resp
    ∧ ∀ slot, slot ∈ AvailabilityResponse.available_slots resp →
        at_ 9 0 <= TimeSlot.start_time slot ∧ TimeSlot.end_time slot <= at_ 17 0.
Proof.
  pose proof (check_availability_within_business_hours db_one 0 "swedish"
                None None) as H.
  assert (get_service db_one "swedish" = Some swedish) as Hs by reflexivity.
  rewrite Hs in H. destruct H as [Hb Hret].
  destruct Hret as [resp Hr].
  - unfold valid_date. lia.
  - vm_compute. discriminate.
  - vm_compute. discriminate.
  - exists resp. split; [exact Hr|]. intros slot Hin.
    destruct (Hb resp slot Hr (or_introl Hin)) as (Hlo & _ & Hhi).
    split; [exact Hlo|exact Hhi].
Defined.



(** Day 741083 is 2030-01-07.  Asked there for a duration of 4294967296
    minutes, whose first slot would end after the year 9999,
    [check_availability] raises the generator's OverflowError. *)
Example check_availability_overflow :
  check_availability db_one 741083 "swedish" (Some "S1") (Some 4294967296)
  = Err OverflowError.
Proof. vm_compute. reflexivity. Qed.

(** ** Rescheduling and completing, beyond the claims *)

(** X19.  A reschedule that returns an appointment has moved exactly the
    row with that id to [new_start, new_start + duration) of its service,
    with status rescheduled and everything else in the row kept; the
    service's duration is positive, no other row matched the conflict
    query, the table has as many rows as before and the graph store is
    not touched. *)
Theorem reschedule_appointment_success svc k new_start svc' a' :
  reschedule_appointment svc k new_start = (svc', Ok a') →
  ∃ a service,
    get_appointment (db svc) k = Some a
    ∧ get_service (db svc) (Appointment.service_id a) = Some service
    ∧ 0 < Service.duration service
    ∧ a' = Appointment.mk (Appointment.id a) (Appointment.customer_id a)
             (Appointment.staff_id a) (Appointment.service_id a) new_start
             (new_start + timedelta (Service.duration service)) RESCHEDULED
             (Appointment.notes a) (Appointment.cancellation_reason a)
    ∧ get_appointment (db svc') k = Some a'
    ∧ reschedule_conflicts (db svc) (Appointment.staff_id a) k new_start
        (new_start + timedelta (Service.duration service)) = []
    ∧ length (appointments (db svc')) = length (appointments (db svc))
    ∧ graph_db svc' = graph_db svc.
Proof.
  unfold reschedule_appointment. intros H.
  destruct (get_appointment (db svc) k) as [a|] eqn:Ha; [|done].
  destruct (get_service _ _) as [service|] eqn:Hs; [|done].
  destruct (reschedule_conflicts _ _ _ _ _) as [|c [|c' rest]] eqn:Hc;
    simpl in H; [|done|done].
  injection H as <- Hv. apply model_validate_ok in Hv as [-> Hlt].
  simpl in Hlt. exists a, service. simpl.
  repeat split; try done.
  - unfold timedelta, usec_per_minute in Hlt. lia.
  - rewrite get_appointment_update by done. by rewrite Ha.
  - by rewrite length_map.
Qed.

Lemma reschedule_appointment_success_witness :
  ∃ a service,
    get_appointment db_two "a2" = Some a
    ∧ get_service db_two (Appointment.service_id a) = Some service
    ∧ 0 < Service.duration service.
Proof.
  destruct (reschedule_appointment_success (mkService db_two None) "a2"
              (at_ 12 0)
              (mkService
                 (update_appointment "a2"
                    (λ a, Appointment.set_status RESCHEDULED
                            (Appointment.set_interval (at_ 12 0) (at_ 15 0) a))
                    db_two) None)
              (Appointment.mk "a2" "c1" "S1" "ritual" (at_ 12 0) (at_ 15 0)
                 RESCHEDULED None None))
    as (a & service & Ha & Hs & Hpos & _).
  - vm_compute. reflexivity.
  - exists a, service. split; [exact Ha|]. split; [exact Hs|exact Hpos].
Defined.

Lemma update_appointment_feedback_keeps g aid cid sid s :
  reachable (update_appointment_feedback g aid cid sid s).1 = reachable g
  ∧ customer_nodes (update_appointment_feedback g aid cid sid s).1
    = customer_nodes g
  ∧ service_nodes (update_appointment_feedback g aid cid sid s).1
    = service_nodes g.
Proof. unfold update_appointment_feedback. by repeat case_match. Qed.

(** One completion, seen from the graph: the PREFERS map afterwards, and
    what stays in place for the next call. *)
Lemma complete_appointment_graph svc g k a s feedback :
  graph_db svc = Some g → reachable g = true →
  get_appointment (db svc) k = Some a →
  Appointment.customer_id a ∈ customer_nodes g →
  is_Some (service_nodes g !! Appointment.service_id a) →
  let key := (Appointment.customer_id a, Appointment.service_id a) in
  let r := complete_appointment svc k s feedback in
  ∃ g' a',
    r.2 = Ok true ∧ graph_db r.1 = Some g'
    ∧ prefers g'
      = <[key := Prefers.mk
                   (Some (coalesce (prefers g !! key ≫= Prefers.strength) 0
                          + s)%Q)
                   (Some (coalesce (prefers g !! key ≫= Prefers.count) 0 + 1))]>
          (prefers g)
    ∧ reachable g' = true
    ∧ customer_nodes g' = customer_nodes g
    ∧ service_nodes g' = service_nodes g
    ∧ get_appointment (db r.1) k = Some a'
    ∧ Appointment.customer_id a' = Appointment.customer_id a
    ∧ Appointment.service_id a' = Appointment.service_id a.
Proof.
  intros Hg Hr Ha Hc Hs. cbv zeta. unfold complete_appointment.
  rewrite Ha, Hg, update_customer_preferences_upsert by done.
  match goal with
  | |- context [update_appointment_feedback ?g1 ?x ?c ?st ?q] =>
      pose proof (update_appointment_feedback_prefers g1 x c st q) as Hp;
      pose proof (update_appointment_feedback_reachable g1 x c st q Hr) as Hok;
      pose proof (update_appointment_feedback_keeps g1 x c st q)
        as (Hk1 & Hk2 & Hk3);
      destruct (update_appointment_feedback g1 x c st q) as [g2 res]
  end.
  simpl in Hp, Hok, Hk1, Hk2, Hk3. subst res. simpl.
  match goal with |- context [update_appointment _ ?f _] => set (f0 := f) end.
  exists g2, (f0 a). rewrite get_appointment_update, Ha.
  - subst f0. repeat split; try done; simpl; try congruence;
      by destruct (truthy feedback).
  - intros row. subst f0. simpl. by destruct (truthy feedback).
Qed.

(** X20.  Completion is not guarded against replay.  Completing the same
    appointment a second time succeeds again and adds to the PREFERS edge
    again: after satisfactions s1 and s2 the strength is old + s1 + s2 and
    the count old + 2. *)
Theorem complete_appointment_twice svc g k a s1 s2 feedback1 feedback2 :
  graph_db svc = Some g → reachable g = true →
  get_appointment (db svc) k = Some a →
  Appointment.customer_id a ∈ customer_nodes g →
  is_Some (service_nodes g !! Appointment.service_id a) →
  let key := (Appointment.customer_id a, Appointment.service_id a) in
  let old := prefers g !! key in
  let svc1 := (complete_appointment svc k s1 feedback1).1 in
  let r := complete_appointment svc1 k s2 feedback2 in
  r.2 = Ok true
  ∧ ∃ g2, graph_db r.1 = Some g2
          ∧ prefers g2 !! key
            = Some (Prefers.mk
                      (Some (coalesce (old ≫= Prefers.strength) 0 + s1 + s2)%Q)
                      (Some (coalesce (old ≫= Prefers.count) 0 + 1 + 1))).
Proof.
  intros Hg Hr Ha Hc Hs. cbv zeta.
  destruct (complete_appointment_graph svc g k a s1 feedback1 Hg Hr Ha Hc Hs)
    as (g1 & a1 & _ & Hg1 & Hp1 & Hr1 & Hc1 & Hs1 & Ha1 & Hca & Hsa).
  destruct (complete_appointment_graph _ g1 k a1 s2 feedback2 Hg1 Hr1 Ha1)
    as (g2 & a2 & Hok & Hg2 & Hp2 & _).
  - by rewrite Hca, Hc1.
  - by rewrite Hsa, Hs1.
  - split; [done|]. exists g2. split; [done|].
    rewrite Hp2, Hca, Hsa, lookup_insert_eq, Hp1, lookup_insert_eq. done.
Qed.

Lemma complete_appointment_twice_witness :
  ∃ g2,
    graph_db (complete_appointment
                (complete_appointment svc_seeded "a1" (3 # 4) None).1
                "a1" (1 # 2) None).1 = Some g2
    ∧ prefers g2 !! ("c1", "swedish")
      = Some (Prefers.mk (Some (0 + (3 # 4) + (1 # 2))%Q) (Some (0 + 1 + 1))).
Proof.
  destruct (complete_appointment_twice svc_seeded graph_seeded "a1"
              ten_to_eleven (3 # 4) (1 # 2) None None)
    as (_ & g2 & Hg & Hedge).
  - reflexivity.
  - reflexivity.
  - reflexivity.
  - apply (bool_decide_unpack _). vm_compute. exact I.
  - apply (bool_decide_unpack _). vm_compute. exact I.
  - exists g2. split; [exact Hg|exact Hedge].
Defined.

(** ** Booking without a staff member *)

Lemma find_available_staff_loop d service_id s e :
  _find_available_staff d service_id s e
  = find_available_loop d (get_all_staff d) s e.
Proof.
  unfold _find_available_staff, get_all_staff.
  by destruct (List.filter Staff.is_active (staff d)).
Qed.

Lemma find_available_loop_all_busy d s e l :
  Forall (one_conflict d s e) l → find_available_loop d l s e = Ok None.
Proof.
  induction 1 as [|st l [c Hc] _ IH]; simpl; [done|]. by rewrite Hc.
Qed.

(** X21.  Booking with no staff member given (None or the empty string),
    for an existing customer and service.  When every active staff member
    has exactly one conflicting appointment the call fails with 'No staff
    available for this time slot' and nothing is written.  When the call
    returns an appointment, its staff member is an active one for whom the
    conflict query is empty, and every active staff member before that one
    in the table has exactly one conflicting appointment. *)
Theorem book_appointment_auto_assign svc new_id customer_id service_id s e
    staff_id notes :
  truthy staff_id = false →
  is_Some (get_customer (db svc) customer_id) →
  is_Some (get_service (db svc) service_id) →
  let r := book_appointment svc new_id customer_id service_id s e staff_id
             notes in
  (Forall (one_conflict (db svc) s e) (get_all_staff (db svc)) →
   r = (svc, Err (ValueError "No staff available for this time slot")))
  ∧ (∀ a, r.2 = Ok a →
      ∃ pre st post,
        get_all_staff (db svc) = pre ++ st :: post
        ∧ Staff.id st = Appointment.staff_id a
        ∧ Staff.is_active st = true
        ∧ booking_conflicts (db svc) (Staff.id st) s e = []
        ∧ Forall (one_conflict (db svc) s e) pre).
Proof.
  intros Ht [c Hc] [service Hs]. cbv zeta. unfold book_appointment.
  rewrite Hc, Hs, Ht. simpl. rewrite find_available_staff_loop. split.
  - intros Hall. by rewrite find_available_loop_all_busy.
  - pose proof (find_available_loop_spec (db svc) s e (get_all_staff (db svc)))
      as Hspec.
    destruct (find_available_loop _ _ _ _) as [[sid|]|err]; [|done|done].
    destruct Hspec as (pre & st & post & Hl & Hid & Hnone & Hpre).
    destruct (String.eqb sid ""); simpl; [done|].
    rewrite Hnone. simpl. intros a Ha.
    assert (Appointment.staff_id a = sid) as Hsid.
    { destruct (commit_insert _ _); [|done].
      destruct (graph_db svc) as [g|].
      - destruct (create_appointment_node g _) as [g' [?|?]]; [|done].
        simpl in Ha. by apply model_validate_ok in Ha as [-> _].
      - simpl in Ha. by apply model_validate_ok in Ha as [-> _]. }
    exists pre, st, post. rewrite Hid, Hsid. repeat split; try done.
    assert (st ∈ get_all_staff (db svc)) as Hin.
    { rewrite Hl. apply elem_of_app. right. apply elem_of_cons. by left. }
    unfold get_all_staff in Hin. apply elem_of_List_filter in Hin. tauto.
Qed.

Lemma book_appointment_auto_assign_witness :
  book_appointment (mkService db_all_busy None) "a5" "c1" "swedish"
    (at_ 10 0) (at_ 11 0) None None
  = (mkService db_all_busy None,
     Err (ValueError "No staff available for this time slot")).
Proof.
  destruct (book_appointment_auto_assign (mkService db_all_busy None) "a5"
              "c1" "swedish" (at_ 10 0) (at_ 11 0) None None)
    as [Hbusy _].
  - reflexivity.
  - exists alice. reflexivity.
  - exists swedish. reflexivity.
  - apply Hbusy. change (get_all_staff (db (mkService db_all_busy None)))
      with [sam; sue].
    constructor; [exists ten_to_eleven; reflexivity|].
    constructor; [exists sue_ten_to_eleven; reflexivity|constructor].
Defined.

(** ** Appointment history *)

Lemma validate_all_cons {A B} (f : A → result B) x l :
  validate_all f (x :: l)
  = match f x with
    | Err e => Err e
    | Ok y =>
        match validate_all f l with
        | Err e => Err e
        | Ok ys => Ok (y :: ys)
        end
    end.
Proof. reflexivity. Qed.

Lemma validate_all_model_validate l :
  match validate_all model_validate l with
  | Ok l' =>
      l' = l
      ∧ Forall (λ a, Appointment.start_time a < Appointment.end_time a) l
  | Err e =>
      e = ValidationError "End time must be after start time"
      ∧ ∃ a, a ∈ l ∧ Appointment.end_time a <= Appointment.start_time a
  end.
Proof.
  induction l as [|a l IH]; [by split|].
  rewrite validate_all_cons. unfold model_validate at 1.
  destruct (Z.leb_spec (Appointment.end_time a) (Appointment.start_time a)).
  - split; [done|]. exists a. split; [apply elem_of_cons; by left|done].
  - destruct (validate_all model_validate l) as [l'|e]; simpl.
    + destruct IH as [-> Hall]. split; [done|]. constructor; [lia|done].
    + destruct IH as [-> (b & Hb & Hle)]. split; [done|].
      exists b. split; [apply elem_of_cons; by right|done].
Qed.

Lemma descending_start_time l :
  descending (λ a, inject_Z (Appointment.start_time a)) l →
  StronglySorted
    (λ a b, Appointment.start_time b <= Appointment.start_time a) l.
Proof.
  unfold descending. induction 1 as [|a l Hl IH Ha]; constructor; [done|].
  eapply Forall_impl; [exact Ha|]. intros b Hb. simpl in Hb.
  by rewrite Zle_Qle.
Qed.

Lemma history_query_elem d customer_id status_filter a :
  a ∈ match status_filter with
      | Some ((_ :: _) as statuses) =>
          List.filter (λ a, bool_decide (Appointment.status a ∈ statuses))
            (List.filter
               (λ a, String.eqb (Appointment.customer_id a) customer_id)
               (appointments d))
      | _ =>
          List.filter
            (λ a, String.eqb (Appointment.customer_id a) customer_id)
            (appointments d)
      end
  ↔ a ∈ appointments d
    ∧ Appointment.customer_id a = customer_id
    ∧ ∀ statuses, status_filter = Some statuses → statuses ≠ [] →
        Appointment.status a ∈ statuses.
Proof.
  destruct status_filter as [[|st sts]|];
    rewrite ?elem_of_List_filter, String.eqb_eq.
  - split; [intros [? ?]|tauto]. repeat split; try done.
    intros ? [= <-] ?. done.
  - rewrite bool_decide_eq_true. split.
    + intros [[? ?] ?]. repeat split; try done. by intros ? [= <-] _.
    + intros (? & ? & H). repeat split; try done. by apply H.
  - split; [intros [? ?]|tauto]. repeat split; done.
Qed.

(** X23.  [get_customer_appointments] returns exactly the stored
    appointments of the customer (restricted to the given statuses when the
    filter is a non-empty list), latest start first, each with start before
    end; it fails with the validation error exactly when one of those rows
    has its end at or before its start. *)
Theorem get_customer_appointments_spec d customer_id status_filter :
  let wanted a :=
    a ∈ appointments d
    ∧ Appointment.customer_id a = customer_id
    ∧ ∀ statuses, status_filter = Some statuses → statuses ≠ [] →
        Appointment.status a ∈ statuses in
  match get_customer_appointments d customer_id status_filter with
  | Ok l =>
      (∀ a, a ∈ l ↔ wanted a)
      ∧ StronglySorted
          (λ a b, Appointment.start_time b <= Appointment.start_time a) l
      ∧ Forall (λ a, Appointment.start_time a < Appointment.end_time a) l
  | Err e =>
      e = ValidationError "End time must be after start time"
      ∧ ∃ a, wanted a ∧ Appointment.end_time a <= Appointment.start_time a
  end.
Proof.
  cbv zeta. unfold get_customer_appointments.
  match goal with
  | |- context [validate_all model_validate ?rows] =>
      pose proof (validate_all_model_validate rows) as H;
      destruct (validate_all model_validate rows) as [l|e]
  end.
  - destruct H as [-> Hall]. split; [|split; [|done]].
    + intros a. by rewrite order_by_desc_perm, history_query_elem.
    + apply descending_start_time, order_by_desc_descending.
  - destruct H as [-> (a & Ha & Hle)]. split; [done|]. exists a.
    split; [|done]. by rewrite order_by_desc_perm, history_query_elem in Ha.
Qed.

Lemma get_customer_appointments_spec_witness :
  ∃ l, get_customer_appointments db_two "c1" (Some [CONFIRMED]) = Ok l
       ∧ afternoon_ritual ∈ l.
Proof.
  pose proof (get_customer_appointments_spec db_two "c1" (Some [CONFIRMED]))
    as H. cbv zeta in H.
  destruct (get_customer_appointments db_two "c1" (Some [CONFIRMED]))
    as [l|e] eqn:Hl.
  - exists l. split; [reflexivity|]. destruct H as [Hin _]. apply Hin.
    split; [|split].
    + change (appointments db_two) with [ten_to_eleven; afternoon_ritual].
      apply elem_of_cons. right. apply elem_of_cons. by left.
    + reflexivity.
    + intros statuses Hs _. injection Hs as <-.
      apply elem_of_cons. by left.
  - vm_compute in Hl. discriminate Hl.
Defined.

Lemma find_available_staff_error d service_id s e err :
  _find_available_staff d service_id s e = Err err →
  err = MultipleResultsFound.
Proof.
  rewrite find_available_staff_loop. intros H.
  pose proof (find_available_loop_spec d s e (get_all_staff d)) as Hspec.
  rewrite H in Hspec. tauto.
Qed.

Lemma commit_insert_error d a err :
  commit_insert d a = Err err → err = IntegrityError.
Proof. unfold commit_insert. intros H. by repeat case_match; simplify_eq. Qed.

Lemma create_appointment_node_error g a g' err :
  create_appointment_node g a = (g', Err err) → err = GraphStoreError.
Proof.
  unfold create_appointment_node. intros H.
  by repeat case_match; simplify_eq.
Qed.

(** A booking that ends in the validation error has committed its row,
    whose end is at or before its start. *)
Lemma book_appointment_validation_error svc new_id customer_id service_id
    s e staff_id notes svc' msg :
  book_appointment svc new_id customer_id service_id s e staff_id notes
  = (svc', Err (ValidationError msg)) →
  e <= s
  ∧ ∃ sid, appointments (db svc')
           = appointments (db svc)
             ++ [Appointment.mk new_id customer_id sid service_id s e
                   CONFIRMED notes None].
Proof.
  unfold book_appointment. intros Hbook.
  destruct (get_customer _ _); [|done].
  destruct (get_service _ _); [|done].
  destruct (negb (truthy staff_id)).
  - destruct (_find_available_staff _ _ _ _) as [[sid|]|err] eqn:Hfind;
      [|done|].
    2: { apply find_available_staff_error in Hfind as ->. done. }
    destruct (negb (truthy (Some sid))); [done|].
    destruct (booking_conflicts (db svc) sid s e) as [|c [|c' rest]];
      simpl in Hbook; [|done|done].
    destruct (commit_insert _ _) as [db'|err] eqn:Hci.
    2: { apply commit_insert_error in Hci as ->. done. }
    apply commit_insert_appends in Hci.
    assert (model_validate
              (Appointment.mk new_id customer_id sid service_id s e
                 CONFIRMED notes None) = Err (ValidationError msg)
            ∧ db svc' = db') as [Hv <-].
    { destruct (graph_db svc) as [g|].
      - destruct (create_appointment_node g _) as [g' [[]|err]] eqn:Hg.
        + by injection Hbook as <- ->.
        + apply create_appointment_node_error in Hg as ->. done.
      - by injection Hbook as <- ->. }
    unfold model_validate in Hv. simpl in Hv.
    destruct (Z.leb_spec e s); [|done]. split; [done|]. by exists sid.
  - destruct staff_id as [sid|]; [|done].
    destruct (negb (truthy (Some sid))); [done|].
    destruct (booking_conflicts (db svc) sid s e) as [|c [|c' rest]];
      simpl in Hbook; [|done|done].
    destruct (commit_insert _ _) as [db'|err] eqn:Hci.
    2: { apply commit_insert_error in Hci as ->. done. }
    apply commit_insert_appends in Hci.
    assert (model_validate
              (Appointment.mk new_id customer_id sid service_id s e
                 CONFIRMED notes None) = Err (ValidationError msg)
            ∧ db svc' = db') as [Hv <-].
    { destruct (graph_db svc) as [g|].
      - destruct (create_appointment_node g _) as [g' [[]|err]] eqn:Hg.
        + by injection Hbook as <- ->.
        + apply create_appointment_node_error in Hg as ->. done.
      - by injection Hbook as <- ->. }
    unfold model_validate in Hv. simpl in Hv.
    destruct (Z.leb_spec e s); [|done]. split; [done|]. by exists sid.
Qed.

(** X24.  When [book_appointment] ends in the validation error, the row
    with end at or before start is in the table, and from then on the
    customer's appointment history (read without a status filter) fails
    with the same validation error. *)
Theorem malformed_booking_breaks_history svc new_id customer_id service_id
    s e staff_id notes svc' msg :
  book_appointment svc new_id customer_id service_id s e staff_id notes
  = (svc', Err (ValidationError msg)) →
  get_customer_appointments (db svc') customer_id None
  = Err (ValidationError "End time must be after start time").
Proof.
  intros (Hle & sid & Happ)%book_appointment_validation_error.
  unfold get_customer_appointments.
  match goal with
  | |- context [validate_all model_validate ?rows] =>
      pose proof (validate_all_model_validate rows) as H;
      destruct (validate_all model_validate rows) as [l|err]
  end.
  - exfalso. destruct H as [_ Hall].
    rewrite Forall_forall in Hall.
    specialize (Hall (Appointment.mk new_id customer_id sid service_id s e
                        CONFIRMED notes None)).
    simpl in Hall. cut (s < e); [lia|]. apply Hall.
    rewrite order_by_desc_perm.
    apply (history_query_elem (db svc') customer_id None).
    rewrite Happ. split; [|split; [done|by intros ? [=]]].
    apply elem_of_app. right. apply elem_of_cons. by left.
  - by destruct H as [-> _].
Qed.

Lemma malformed_booking_breaks_history_witness :
  get_customer_appointments
    (db (book_appointment (mkService db_none None) "a9" "c1" "swedish"
           (at_ 10 0) (at_ 9 0) (Some "S1") None).1)
    "c1" None
  = Err (ValidationError "End time must be after start time").
Proof.
  apply (malformed_booking_breaks_history (mkService db_none None) "a9" "c1"
           "swedish" (at_ 10 0) (at_ 9 0) (Some "S1") None _
           "End time must be after start time").
  vm_compute. reflexivity.
Defined.

(** ** Recommendations for a customer *)

Lemma service_record_no_id r : service_record r !! "service_id" = None.
Proof.
  unfold service_record. by rewrite !lookup_insert_ne, lookup_empty.
Qed.

Lemma staff_record_no_staff_name r : staff_record r !! "staff_name" = None.
Proof.
  unfold staff_record. by rewrite !lookup_insert_ne, lookup_empty.
Qed.

Lemma validate_service_recommendation_fails co r :
  ∃ err, validate_service_recommendation co (service_record r) = Err err.
Proof.
  unfold validate_service_recommendation, required.
  rewrite service_record_no_id. by eexists.
Qed.

Lemma validate_staff_recommendation_fails co r :
  ∃ err, validate_staff_recommendation co (staff_record r) = Err err.
Proof.
  unfold validate_staff_recommendation, required.
  rewrite staff_record_no_staff_name.
  destruct (staff_record r !! "staff_id") as [v|]; simpl; [|by eexists].
  destruct (as_str co v); simpl; by eexists.
Qed.

Lemma validate_all_fmap_fails {A B C} (f : B → result C) (g : A → B) l :
  (∀ x, ∃ err, f (g x) = Err err) →
  match validate_all f (g <$> l) with
  | Ok out => out = []
  | Err _ => True
  end.
Proof.
  intros Hfail. destruct l as [|x l]; [done|].
  rewrite fmap_cons, validate_all_cons. by destruct (Hfail x) as [err ->].
Qed.

(** X22.  [get_recommendations] never delivers a recommendation.  The
    rows of the service query carry no [service_id] and the rows of the
    staff query no [staff_name], both required by the response schema, so
    whenever a query returns a row the response fails validation inside
    the [try] and the empty response is returned instead; this holds for
    every graph, request and coercion of the values that are present. *)
Theorem get_recommendations_always_empty co svc customer_id service_id limit :
  get_recommendations co svc customer_id service_id limit
  = RecommendationResponse.mk customer_id [] [].
Proof.
  unfold get_recommendations.
  destruct (graph_db svc) as [g|]; [|done].
  destruct (get_service_recommendations g customer_id limit)
    as [service_recs|err]; [|done].
  destruct (if truthy service_id then _ else _) as [staff_recs|err]; [|done].
  unfold mbind, result_bind. cbv beta iota.
  pose proof (validate_all_fmap_fails (validate_service_recommendation co)
                service_record service_recs
                (validate_service_recommendation_fails co)) as Hservices.
  pose proof (validate_all_fmap_fails (validate_staff_recommendation co)
                staff_record staff_recs
                (validate_staff_recommendation_fails co)) as Hstaff.
  destruct (validate_all (validate_service_recommendation co) _)
    as [services|]; [subst services|done].
  destruct (validate_all (validate_staff_recommendation co) _)
    as [staff_list|]; [subst staff_list|done].
  done.
Qed.

(** The graph of [graph_prefs] has a recommendation for c1, and the
    response carries none. *)
Example get_recommendations_c1 :
  is_ok (get_service_recommendations graph_prefs "c1" 5) = true
  ∧ get_service_recommendations graph_prefs "c1" 5 ≠ Ok []
  ∧ get_recommendations strict (mkService db_one (Some graph_prefs)) "c1"
      (Some "swedish") 5
    = RecommendationResponse.mk "c1" [] [].
Proof.
  split; [vm_compute; reflexivity|]. split.
  - intros H. vm_compute in H. discriminate H.
  - vm_compute. reflexivity.
Qed.
